(** * The OpenTelemetry ingestion handlers of [backend/otel/otel.go]

    A shallow embedding of [castString], [setHighlightAttributes],
    [projectToInt], [HandleTrace] and [HandleLog], from the decoded export
    request onwards, and the properties of the classification and routing
    code that the specification states.

    Conventions.
    - A Go [string] is a byte sequence: [string] of the standard library.
    - [map[string]any] as produced by [pcommon.Map.AsRaw] is a
      [gmap string AttrValue]; [AttrValue] is the tagged union of the
      dynamic types [AsRaw] can produce.
    - A run-time panic is [None] in the option monad; a handler that
      panics never reaches its submission loops.
    - The maps the handlers fill ([traceErrors], [projectErrors],
      [projectLogs]) are [gmap string (list _)].
    - [&sessionID] and [&requestID] are addresses of the variables of one
      iteration of the outer loop; see [StrPtr]. *)

From stdpp Require Import base option list gmap strings fin_maps.
From Stdlib Require Import ZArith Ascii String.
From Stdlib Require DecimalString DecimalZ.

#[local] Open Scope string_scope.
#[local] Open Scope list_scope.

(** ** Attribute values *)

(** The values [pcommon.Map.AsRaw] stores in a [map[string]any]. A
    [float64] is kept as its bit pattern, it is never inspected here. *)
#[local] Set Warnings "-register-all".
Inductive AttrValue : Type :=
| VStr (s : string)
| VBool (b : bool)
| VInt (z : Z)
| VDouble (bits : Z)
| VBytes (bs : string)
| VMap (kvs : list (string * AttrValue))
| VSlice (vs : list AttrValue)
| VNil.
#[local] Set Warnings "register-all".

Abbreviation Attrs := (gmap string AttrValue).

(** [s, _ := v.(string)]: the comma-ok type assertion. The zero value
    [""] comes back when [v] is nil (the key is missing) or holds another
    dynamic type. *)
Definition assertStringOk (v : option AttrValue) : string :=
  match v with
  | Some (VStr s) => s
  | _ => ""
  end.

(** [p.(string)]: the single-value type assertion. It panics when the
    dynamic type of [p] is not [string]. *)
Definition assertString (p : AttrValue) : option string :=
  match p with
  | VStr s => Some s
  | _ => None
  end.

(** [func castString(v interface{}, fallback string) string] *)
Definition castString (v : option AttrValue) (fallback : string) : string :=
  let s := assertStringOk v in
  if decide (s = "") then fallback else s.

(** ** Correlation identifiers *)

(** The three variables [projectID, sessionID, requestID] that one
    iteration of the outer loop declares. *)
Record Identifiers : Type := mkIds {
  projectID : string;
  sessionID : string;
  requestID : string
}.

Definition noIdentifiers : Identifiers := mkIds "" "" "".

(** One of the three blocks of [setHighlightAttributes]:
    [if p, ok := attrs[key]; ok { if p.(string) != "" { *x = p.(string) } }] *)
Definition setAttribute (attrs : Attrs) (key : string) (x : string)
  : option string :=
  match attrs !! key with
  | Some p =>
      s ← assertString p;
      Some (if decide (s ≠ "") then s else x)
  | None => Some x
  end.

(** ** Standard library: [strconv.ParseInt(s, 10, 32)] *)

Definition digitValue (c : ascii) : option Z :=
  let n := Z.of_N (N_of_ascii c) in
  if decide (48 ≤ n ≤ 57)%Z then Some (n - 48)%Z else None.

Fixpoint parseDigits (s : string) (acc : Z) : option Z :=
  match s with
  | EmptyString => Some acc
  | String c s' => d ← digitValue c; parseDigits s' (10 * acc + d)%Z
  end.

(** Base 10 and bit size 32: an optional sign, then at least one decimal
    digit and nothing else (underscores are accepted for base 0 only);
    a value outside [-2^31, 2^31) is a range error. [None] is [err != nil]. *)
Definition ParseInt_10_32 (s : string) : option Z :=
  match s with
  | EmptyString => None
  | String c rest =>
      let '(neg, digits) :=
        if decide (c = "+"%char) then (false, rest)
        else if decide (c = "-"%char) then (true, rest)
        else (false, s) in
      match digits with
      | EmptyString => None
      | _ =>
          un ← parseDigits digits 0;
          if neg then
            (if decide (un ≤ 2 ^ 31)%Z then Some (- un)%Z else None)
          else
            (if decide (un < 2 ^ 31)%Z then Some un else None)
      end
  end.

(** The conversions [uint32(x)] and [int32(x)] of an integer. *)
Definition uint32 (x : Z) : Z := (x mod 2 ^ 32)%Z.
Definition int32 (x : Z) : Z := ((x + 2 ^ 31) mod 2 ^ 32 - 2 ^ 31)%Z.

(** ** The decoded export requests *)

(** A span event: [event.Name()], [event.Attributes().AsRaw()] and
    [event.Timestamp().AsTime()] (nanoseconds). *)
Record SpanEvent : Type := mkEvent {
  ev_Name : string;
  ev_Attributes : Attrs;
  ev_Timestamp : Z
}.

(** A span, with the text of its trace and span ids. *)
Record Span : Type := mkSpan {
  sp_Attributes : Attrs;
  sp_TraceID : string;
  sp_SpanID : string;
  sp_Events : list SpanEvent
}.

Record ScopeSpans : Type := mkScopeSpans {
  ss_ScopeName : string;
  ss_Spans : list Span
}.

Record ResourceSpans : Type := mkResourceSpans {
  rs_Attributes : Attrs;
  rs_ScopeSpans : list ScopeSpans
}.

(** A log record of a log export request. [lg_Body] is the body value;
    [Body().Str()] reads it with [bodyStr]. *)
Record LogRecord : Type := mkLogRecord {
  lg_Attributes : Attrs;
  lg_Body : AttrValue;
  lg_SeverityText : string;
  lg_SeverityNumber : Z;
  lg_TraceID : string;
  lg_SpanID : string;
  lg_Timestamp : Z
}.

Record ScopeLogs : Type := mkScopeLogs {
  sl_LogRecords : list LogRecord
}.

Record ResourceLogs : Type := mkResourceLogs {
  rl_Attributes : Attrs;
  rl_ScopeLogs : list ScopeLogs
}.

(** [pcommon.Value.Str]: the string of a string value, [""] otherwise. *)
Definition bodyStr (v : AttrValue) : string := assertStringOk (Some v).

(** ** The records the handlers build *)

(** The address of a string variable. Iteration [i] of the outer loop
    declares its own [sessionID] and [requestID]; an error record stores
    [&sessionID] and [&requestID], so every error record of one resource
    group points at the same two variables. *)
Inductive StrPtr : Type :=
| AddrSessionID (i : nat)
| AddrRequestID (i : nat).

(** The memory those addresses point into: entry [i] holds the variables
    of iteration [i]. *)
Abbreviation Memory := (list Identifiers).

Definition deref (mem : Memory) (p : StrPtr) : string :=
  match p with
  | AddrSessionID i => default "" (sessionID <$> mem !! i)
  | AddrRequestID i => default "" (requestID <$> mem !! i)
  end.

(** [model.BackendErrorObjectInput] *)
Record BackendErrorObjectInput : Type := mkError {
  be_SessionSecureID : StrPtr;
  be_RequestID : StrPtr;
  be_TraceID : string;
  be_SpanID : string;
  be_Event : string;
  be_Type : string;
  be_Source : string;
  be_StackTrace : string;
  be_Timestamp : Z;
  be_Payload : string;
  be_URL : string
}.

(** [clickhouse.LogRow] *)
Record LogRow : Type := mkLogRow {
  lr_Timestamp : Z;
  lr_TraceId : string;
  lr_SpanId : string;
  lr_SeverityText : string;
  lr_SeverityNumber : Z;
  lr_ServiceName : string;
  lr_Body : string;
  lr_ResourceAttributes : gmap string string;
  lr_LogAttributes : gmap string string;
  lr_ProjectId : Z;
  lr_SecureSessionId : string
}.

(** [kafkaqueue.Message], as the two handlers build it. *)
Inductive Message : Type :=
| PushBackendPayload (SessionSecureID ProjectVerboseID : option string)
    (Errors : list BackendErrorObjectInput)
| PushLogs (LogRows : list LogRow).

(** The two queues of the resolver. *)
Inductive Queue : Type := ProducerQueue | BatchedQueue.

(** One call [queue.Submit(msg, partitionKey)]. *)
Record Submission : Type := mkSubmission {
  sub_Queue : Queue;
  sub_Message : Message;
  sub_PartitionKey : string
}.

(** The three [range] loops of [HandleTrace] and the one of [HandleLog]. *)
Inductive RangeSite : Type :=
| RangeTraceErrors | RangeProjectErrors | RangeProjectLogs | RangeLogs.

(** The lines the handlers write to the log while classifying. *)
Inductive Diagnostic : Type :=
| FailedToFormatAttributes
| ExceptionNoStacktrace
| ExceptionNoTypeNoMessage
| ErrorNoSessionNoProject (err : BackendErrorObjectInput)
| SpanLogNoMessage
| SpanLogInvalidProjectID (projectVerboseID logMessage : string)
| SpanLogNoProject (row : LogRow)
| LogInvalidProjectID (project : string) (body : AttrValue)
| LogNoProject (row : LogRow).

(** ** What the handlers use and this file does not define

    The constants of the Highlight SDK packages [highlight] and [hlog],
    [model.FromVerboseID] and [formatStructureStackTrace] are declared
    elsewhere in the repository; [json.Marshal] and [strings.ToLower] are
    the standard library's; the queue is an external service whose state
    is [Sink] and whose [Submit] answers [true] for a nil error. The order
    of a [range] over a map is not specified: [rangeOrder] is any order of
    the entries, possibly a different one at each loop. *)
Class Externals : Type := {
  ProjectIDAttribute : string;
  SessionIDAttribute : string;
  RequestIDAttribute : string;
  ErrorURLKey : string;
  LogName : string;
  LogSeverityKey : string;
  LogMessageKey : string;
  FromVerboseID : string → option Z;
  formatStructureStackTrace : string → string;
  json_Marshal : Attrs → option string;
  strings_ToLower : string → string;
  Sink : Type;
  Submit : Memory → Submission → Sink → Sink * bool;
  rangeOrder : ∀ V : Type, RangeSite → gmap string V → list (string * V);
  rangeOrder_perm : ∀ V site (m : gmap string V),
    rangeOrder V site m ≡ₚ map_to_list m
}.

(** The constants of [go.opentelemetry.io/otel/semconv/v1.17.0]. *)
Definition ExceptionEventName : string := "exception".
Definition ExceptionTypeKey : string := "exception.type".
Definition ExceptionMessageKey : string := "exception.message".
Definition ExceptionStacktraceKey : string := "exception.stacktrace".
Definition TelemetrySDKLanguageKey : string := "telemetry.sdk.language".
Definition ServiceNameKey : string := "service.name".

(** [http.StatusOK] and [http.StatusServiceUnavailable]. *)
Definition StatusOK : Z := 200.
Definition StatusServiceUnavailable : Z := 503.

(** ** The helpers of [otel.go] *)

Section Helpers.
Context `{Externals}.

(** [func setHighlightAttributes(attrs map[string]any,
      projectID, sessionID, requestID *string)].
    The three variables are read and written through the pointers; the
    result is their new contents, or [None] when a type assertion panics. *)
Definition setHighlightAttributes (attrs : Attrs) (ids : Identifiers)
  : option Identifiers :=
  p ← setAttribute attrs ProjectIDAttribute (projectID ids);
  s ← setAttribute attrs SessionIDAttribute (sessionID ids);
  r ← setAttribute attrs RequestIDAttribute (requestID ids);
  Some (mkIds p s r).

(** [func projectToInt(projectID string) (int, error)]; [None] is the
    error [invalid project id ...]. *)
Definition projectToInt (projectID : string) : option Z :=
  match ParseInt_10_32 projectID with
  | Some i => Some i
  | None =>
      match FromVerboseID projectID with
      | Some i2 => Some i2
      | None => None
      end
  end.

(** [logrus.ParseLevel]: the level and whether the error is nil. The
    levels are numbered from [PanicLevel = 0] to [TraceLevel = 6]; with the
    error comes the zero value of [Level]. *)
Definition ParseLevel (lvl : string) : Z * bool :=
  let l := strings_ToLower lvl in
  if decide (l = "panic") then (0%Z, true)
  else if decide (l = "fatal") then (1%Z, true)
  else if decide (l = "error") then (2%Z, true)
  else if decide (l = "warn" ∨ l = "warning") then (3%Z, true)
  else if decide (l = "info") then (4%Z, true)
  else if decide (l = "debug") then (5%Z, true)
  else if decide (l = "trace") then (6%Z, true)
  else (0%Z, false).

(** The loop that fills [resourceAttributesMap], and [logAttributesMap]
    in [HandleLog]: the entries whose value is a non-empty string. *)
Definition stringAttributes (attrs : Attrs) : gmap string string :=
  map_imap (λ _ v,
    let vStr := castString (Some v) "" in
    if decide (vStr ≠ "") then Some (castString (Some v) "") else None) attrs.

(** The loop that fills [logAttributesMap] in [HandleTrace]: as above,
    without the message and severity keys. *)
Definition logEventAttributes (attrs : Attrs) : gmap string string :=
  map_imap (λ k v,
    let vStr := castString (Some v) "" in
    if decide (vStr = "" ∨ k = LogMessageKey ∨ k = LogSeverityKey)
    then None else Some (castString (Some v) "")) attrs.

(** [strings.Join(lo.Filter([]string{sdkLanguage, serviceName,
      scope.Name()}, func(s) { return s != "" }), "-")] *)
Definition joinSource (sdkLanguage serviceName scopeName : string) : string :=
  String.concat "-"
    (filter (λ s, s ≠ "") [sdkLanguage; serviceName; scopeName]).

(** [m[k] = append(m[k], v)], after [m[k]] is set to the empty slice when
    the key is missing. *)
Definition appendAt {V : Type} (k : string) (v : V)
    (m : gmap string (list V)) : gmap string (list V) :=
  <[k := default [] (m !! k) ++ [v]]> m.

(** A loop whose body may panic. *)
Fixpoint forEach {A S : Type} (body : A → S → option S) (l : list A) (s : S)
  : option S :=
  match l with
  | [] => Some s
  | x :: l' => s' ← body x s; forEach body l' s'
  end.

End Helpers.

(** ** [HandleTrace]: classification *)

(** The three maps of [HandleTrace] and the lines logged so far. *)
Record TraceState : Type := mkTraceState {
  traceErrors : gmap string (list BackendErrorObjectInput);
  projectErrors : gmap string (list BackendErrorObjectInput);
  projectLogs : gmap string (list LogRow);
  traceDiagnostics : list Diagnostic
}.

Definition emptyTraceState : TraceState := mkTraceState ∅ ∅ ∅ [].

Definition warnTrace (d : Diagnostic) (st : TraceState) : TraceState :=
  mkTraceState (traceErrors st) (projectErrors st) (projectLogs st)
    (traceDiagnostics st ++ [d]).

(** What the body of the event loop sees of the enclosing loops. *)
Record SpanContext : Type := mkSpanContext {
  cx_Index : nat;
  cx_ResourceAttributes : Attrs;
  cx_sdkLanguage : string;
  cx_serviceName : string;
  cx_ScopeName : string;
  cx_Span : Span;
  cx_tagsBytes : string
}.

Section Trace.
Context `{Externals}.

(** Lines 133-163: the exception branch up to the record it builds. *)
Definition exceptionEvent (cx : SpanContext) (event : SpanEvent)
  : Diagnostic + BackendErrorObjectInput :=
  let eventAttributes := ev_Attributes event in
  let excType := castString (eventAttributes !! ExceptionTypeKey) "" in
  let excMessage := castString (eventAttributes !! ExceptionMessageKey) "" in
  let stackTrace := castString (eventAttributes !! ExceptionStacktraceKey) "" in
  let errorUrl := castString (eventAttributes !! ErrorURLKey) "" in
  if decide (stackTrace = "") then inl ExceptionNoStacktrace
  else if decide (excType = "" ∧ excMessage = "") then
    inl ExceptionNoTypeNoMessage
  else
    let stackTrace := formatStructureStackTrace stackTrace in
    inr {| be_SessionSecureID := AddrSessionID (cx_Index cx);
           be_RequestID := AddrRequestID (cx_Index cx);
           be_TraceID := sp_TraceID (cx_Span cx);
           be_SpanID := sp_SpanID (cx_Span cx);
           be_Event := castString (Some (VStr excMessage)) "";
           be_Type := castString (Some (VStr excType)) "BACKEND";
           be_Source := joinSource (cx_sdkLanguage cx) (cx_serviceName cx)
                          (cx_ScopeName cx);
           be_StackTrace := stackTrace;
           be_Timestamp := ev_Timestamp event;
           be_Payload := cx_tagsBytes cx;
           be_URL := errorUrl |}.

(** Lines 164-178: where the error record goes. *)
Definition routeError (ids : Identifiers) (err : BackendErrorObjectInput)
    (st : TraceState) : TraceState :=
  if decide (sessionID ids ≠ "") then
    mkTraceState (appendAt (sessionID ids) err (traceErrors st))
      (projectErrors st) (projectLogs st) (traceDiagnostics st)
  else if decide (projectID ids ≠ "") then
    mkTraceState (traceErrors st)
      (appendAt (projectID ids) err (projectErrors st))
      (projectLogs st) (traceDiagnostics st)
  else warnTrace (ErrorNoSessionNoProject err) st.

(** Lines 180-219: the log branch up to the row it builds. *)
Definition logEvent (cx : SpanContext) (event : SpanEvent) (ids : Identifiers)
  : Diagnostic + LogRow :=
  let eventAttributes := ev_Attributes event in
  let logSev := castString (eventAttributes !! LogSeverityKey) "unknown" in
  let logMessage := castString (eventAttributes !! LogMessageKey) "" in
  if decide (logMessage = "") then inl SpanLogNoMessage
  else
    match projectToInt (projectID ids) with
    | None => inl (SpanLogInvalidProjectID (projectID ids) logMessage)
    | Some projectIDInt =>
        let resourceAttributesMap :=
          stringAttributes (cx_ResourceAttributes cx) in
        let logAttributesMap := logEventAttributes eventAttributes in
        let lvl := fst (ParseLevel logSev) in
        inr {| lr_Timestamp := ev_Timestamp event;
               lr_TraceId := sp_TraceID (cx_Span cx);
               lr_SpanId := sp_SpanID (cx_Span cx);
               lr_SeverityText := logSev;
               lr_SeverityNumber := int32 lvl;
               lr_ServiceName := cx_serviceName cx;
               lr_Body := logMessage;
               lr_ResourceAttributes := resourceAttributesMap;
               lr_LogAttributes := logAttributesMap;
               lr_ProjectId := uint32 projectIDInt;
               lr_SecureSessionId := sessionID ids |}
    end.

(** Lines 220-229: where the log row goes. *)
Definition routeLog (ids : Identifiers) (logRow : LogRow) (st : TraceState)
  : TraceState :=
  if decide (projectID ids ≠ "") then
    mkTraceState (traceErrors st) (projectErrors st)
      (appendAt (projectID ids) logRow (projectLogs st))
      (traceDiagnostics st)
  else warnTrace (SpanLogNoProject logRow) st.

(** Lines 132-230: what the loop body does with the event once the
    identifiers are updated. *)
Definition classifyEvent (cx : SpanContext) (event : SpanEvent)
    (ids : Identifiers) (st : TraceState) : TraceState :=
  if decide (ev_Name event = ExceptionEventName) then
    match exceptionEvent cx event with
    | inl d => warnTrace d st
    | inr err => routeError ids err st
    end
  else if decide (ev_Name event = LogName) then
    match logEvent cx event ids with
    | inl d => warnTrace d st
    | inr logRow => routeLog ids logRow st
    end
  else st.

(** Lines 129-230: the body of the loop over the events of a span. *)
Definition eventBody (cx : SpanContext) (event : SpanEvent)
    (s : Identifiers * TraceState) : option (Identifiers * TraceState) :=
  let '(ids, st) := s in
  ids ← setHighlightAttributes (ev_Attributes event) ids;
  Some (ids, classifyEvent cx event ids st).

(** Lines 119-231: the body of the loop over the spans of a scope. *)
Definition spanBody (i : nat) (resourceAttributes : Attrs)
    (sdkLanguage serviceName scopeName : string) (span : Span)
    (s : Identifiers * TraceState) : option (Identifiers * TraceState) :=
  let '(ids, st) := s in
  let spanAttributes := sp_Attributes span in
  match json_Marshal spanAttributes with
  | None => Some (ids, warnTrace FailedToFormatAttributes st)
  | Some tagsBytes =>
      ids ← setHighlightAttributes spanAttributes ids;
      forEach
        (eventBody (mkSpanContext i resourceAttributes sdkLanguage
                      serviceName scopeName span tagsBytes))
        (sp_Events span) (ids, st)
  end.

(** Lines 116-232: the body of the loop over the scopes of a resource. *)
Definition scopeBody (i : nat) (resourceAttributes : Attrs)
    (sdkLanguage serviceName : string) (scopeSpans : ScopeSpans)
    (s : Identifiers * TraceState) : option (Identifiers * TraceState) :=
  forEach
    (spanBody i resourceAttributes sdkLanguage serviceName
       (ss_ScopeName scopeSpans))
    (ss_Spans scopeSpans) s.

(** Lines 108-233: the body of the outer loop, iteration [i]. Its three
    variables start empty; their last contents stay in memory, where the
    error records of this iteration point. *)
Definition resourceBody (i : nat) (resourceSpans : ResourceSpans)
    (st : TraceState) : option (Identifiers * TraceState) :=
  let ids := noIdentifiers in
  let resourceAttributes := rs_Attributes resourceSpans in
  let sdkLanguage :=
    castString (resourceAttributes !! TelemetrySDKLanguageKey) "" in
  let serviceName := castString (resourceAttributes !! ServiceNameKey) "" in
  ids ← setHighlightAttributes resourceAttributes ids;
  forEach (scopeBody i resourceAttributes sdkLanguage serviceName)
    (rs_ScopeSpans resourceSpans) (ids, st).

(** Lines 106-234: the outer loop from iteration [i] on. [mem] holds the
    variables of the iterations before [i]. *)
Fixpoint resourceLoop (spans : list ResourceSpans) (i : nat)
    (s : Memory * TraceState) : option (Memory * TraceState) :=
  match spans with
  | [] => Some s
  | resourceSpans :: spans' =>
      let '(mem, st) := s in
      '(ids, st') ← resourceBody i resourceSpans st;
      resourceLoop spans' (S i) (mem ++ [ids], st')
  end.

(** Lines 101-234 of [HandleTrace]. *)
Definition classifyTrace (req : list ResourceSpans)
  : option (Memory * TraceState) :=
  resourceLoop req 0 ([], emptyTraceState).

End Trace.

(** ** [HandleLog]: classification *)

(** The map of [HandleLog] and the lines logged so far. *)
Record LogState : Type := mkLogState {
  logRows : gmap string (list LogRow);
  logDiagnostics : list Diagnostic
}.

Definition emptyLogState : LogState := mkLogState ∅ [].

Definition warnLog (d : Diagnostic) (st : LogState) : LogState :=
  mkLogState (logRows st) (logDiagnostics st ++ [d]).

Section Log.
Context `{Externals}.

(** Lines 326-357: from the project id to the row. *)
Definition logRecordRow (resourceAttributes : Attrs) (serviceName : string)
    (logRecord : LogRecord) (ids : Identifiers) : Diagnostic + LogRow :=
  let logAttributes := lg_Attributes logRecord in
  match projectToInt (projectID ids) with
  | None => inl (LogInvalidProjectID (projectID ids) (lg_Body logRecord))
  | Some projectIDInt =>
      let resourceAttributesMap := stringAttributes resourceAttributes in
      let logAttributesMap := stringAttributes logAttributes in
      inr {| lr_Timestamp := lg_Timestamp logRecord;
             lr_TraceId := lg_TraceID logRecord;
             lr_SpanId := lg_SpanID logRecord;
             lr_SeverityText := lg_SeverityText logRecord;
             lr_SeverityNumber := int32 (lg_SeverityNumber logRecord);
             lr_ServiceName := serviceName;
             lr_Body := bodyStr (lg_Body logRecord);
             lr_ResourceAttributes := resourceAttributesMap;
             lr_LogAttributes := logAttributesMap;
             lr_ProjectId := uint32 projectIDInt;
             lr_SecureSessionId := sessionID ids |}
  end.

(** Lines 358-367: where the row goes. *)
Definition routeLogRecord (ids : Identifiers) (logRow : LogRow)
    (st : LogState) : LogState :=
  if decide (projectID ids ≠ "") then
    mkLogState (appendAt (projectID ids) logRow (logRows st))
      (logDiagnostics st)
  else warnLog (LogNoProject logRow) st.

(** Lines 323-368: the body of the loop over the records of a scope. *)
Definition logRecordBody (resourceAttributes : Attrs) (serviceName : string)
    (logRecord : LogRecord) (s : Identifiers * LogState)
  : option (Identifiers * LogState) :=
  let '(ids, st) := s in
  ids ← setHighlightAttributes (lg_Attributes logRecord) ids;
  match logRecordRow resourceAttributes serviceName logRecord ids with
  | inl d => Some (ids, warnLog d st)
  | inr logRow => Some (ids, routeLogRecord ids logRow st)
  end.

(** Lines 321-369: the body of the loop over the scopes of a resource. *)
Definition scopeLogsBody (resourceAttributes : Attrs) (serviceName : string)
    (scopeLogs : ScopeLogs) (s : Identifiers * LogState)
  : option (Identifiers * LogState) :=
  forEach (logRecordBody resourceAttributes serviceName)
    (sl_LogRecords scopeLogs) s.

(** Lines 314-370: the body of the outer loop. No address of its
    variables is taken, so nothing of them outlives the iteration. *)
Definition resourceLogsBody (resourceLogs : ResourceLogs) (st : LogState)
  : option LogState :=
  let ids := noIdentifiers in
  let resourceAttributes := rl_Attributes resourceLogs in
  let serviceName := castString (resourceAttributes !! ServiceNameKey) "" in
  ids ← setHighlightAttributes resourceAttributes ids;
  snd <$> forEach (scopeLogsBody resourceAttributes serviceName)
            (rl_ScopeLogs resourceLogs) (ids, st).

(** Lines 310-370 of [HandleLog]. *)
Definition classifyLog (req : list ResourceLogs) : option LogState :=
  forEach resourceLogsBody req emptyLogState.

End Log.

(** ** Routing *)

(** What a handler has done when it returns: the status it wrote, the
    calls of [Submit] it made with their outcome, oldest first, and the
    state it leaves the queue in. *)
Record Response (S : Type) : Type := mkResponse {
  resp_Status : Z;
  resp_Calls : list (Submission * bool);
  resp_Sink : S
}.

Arguments mkResponse {S} _ _ _.
Arguments resp_Status {S} _.
Arguments resp_Calls {S} _.
Arguments resp_Sink {S} _.

Section Routing.
Context `{Externals}.

(** One [range] loop: submit the messages in turn; at the first error
    the handler writes 503 and returns ([false]). *)
Fixpoint submitLoop (mem : Memory) (subs : list Submission) (k : Sink)
  : list (Submission * bool) * Sink * bool :=
  match subs with
  | [] => ([], k, true)
  | sub :: subs' =>
      let '(k', ok) := Submit mem sub k in
      if ok then
        let '(calls, k'', r) := submitLoop mem subs' k' in
        ((sub, true) :: calls, k'', r)
      else ([(sub, false)], k', false)
  end.

(** Lines 236-242: the messages of the first loop of [HandleTrace]. *)
Definition sessionErrorSubmissions (st : TraceState) : list Submission :=
  (λ '(sessionID, errors),
     mkSubmission ProducerQueue
       (PushBackendPayload (Some sessionID) None errors) sessionID)
  <$> rangeOrder _ RangeTraceErrors (traceErrors st).

(** Lines 250-256: the messages of the second loop. *)
Definition projectErrorSubmissions (st : TraceState) : list Submission :=
  (λ '(projectID, errors),
     mkSubmission ProducerQueue
       (PushBackendPayload None (Some projectID) errors) projectID)
  <$> rangeOrder _ RangeProjectErrors (projectErrors st).

(** Lines 264-269 and 372-377: the messages of a loop over log rows. *)
Definition logSubmissions (site : RangeSite)
    (rows : gmap string (list LogRow)) : list Submission :=
  (λ '(projectID, logRows),
     mkSubmission BatchedQueue (PushLogs logRows) projectID)
  <$> rangeOrder _ site rows.

(** Lines 236-277 of [HandleTrace]. *)
Definition routeTrace (mem : Memory) (st : TraceState) (k : Sink)
  : Response Sink :=
  let '(c1, k1, ok1) := submitLoop mem (sessionErrorSubmissions st) k in
  if negb ok1 then mkResponse StatusServiceUnavailable c1 k1 else
  let '(c2, k2, ok2) := submitLoop mem (projectErrorSubmissions st) k1 in
  if negb ok2 then mkResponse StatusServiceUnavailable (c1 ++ c2) k2 else
  let '(c3, k3, ok3) :=
    submitLoop mem (logSubmissions RangeProjectLogs (projectLogs st)) k2 in
  if negb ok3 then mkResponse StatusServiceUnavailable (c1 ++ c2 ++ c3) k3
  else mkResponse StatusOK (c1 ++ c2 ++ c3) k3.

(** Lines 372-385 of [HandleLog]. *)
Definition routeLogs (st : LogState) (k : Sink) : Response Sink :=
  let '(c1, k1, ok1) :=
    submitLoop [] (logSubmissions RangeLogs (logRows st)) k in
  if negb ok1 then mkResponse StatusServiceUnavailable c1 k1
  else mkResponse StatusOK c1 k1.

(** [HandleTrace], once the request is decoded. [None]: the handler
    panicked while classifying. *)
Definition HandleTrace (req : list ResourceSpans) (k : Sink)
  : option (Response Sink) :=
  '(mem, st) ← classifyTrace req;
  Some (routeTrace mem st k).

(** [HandleLog], once the request is decoded. *)
Definition HandleLog (req : list ResourceLogs) (k : Sink)
  : option (Response Sink) :=
  st ← classifyLog req;
  Some (routeLogs st k).

End Routing.

(** ** The attribute resolver and the order of classification *)

(** The three reserved identifier keys. *)
Inductive Reserved : Type := ProjectKey | SessionKey | RequestKey.

Definition identifier (r : Reserved) (ids : Identifiers) : string :=
  match r with
  | ProjectKey => projectID ids
  | SessionKey => sessionID ids
  | RequestKey => requestID ids
  end.

(** What the classification of one event has put in a map. *)
Inductive Placed : Type :=
| InTraceErrors (key : string) (err : BackendErrorObjectInput)
| InProjectErrors (key : string) (err : BackendErrorObjectInput)
| InProjectLogs (key : string) (row : LogRow).

Definition placedTraceError (k : string) (p : Placed)
  : option BackendErrorObjectInput :=
  match p with
  | InTraceErrors key err => if decide (key = k) then Some err else None
  | _ => None
  end.

Definition placedProjectError (k : string) (p : Placed)
  : option BackendErrorObjectInput :=
  match p with
  | InProjectErrors key err => if decide (key = k) then Some err else None
  | _ => None
  end.

Definition placedProjectLog (k : string) (p : Placed) : option LogRow :=
  match p with
  | InProjectLogs key row => if decide (key = k) then Some row else None
  | _ => None
  end.

(** No map has the empty key or an entry without records. *)
Definition keyedRecords {V : Type} (m : gmap string (list V)) : Prop :=
  ∀ k l, m !! k = Some l → k ≠ "" ∧ l ≠ [].

(** One step of the traversal of a resource group, with what it needs to
    be replayed on its own: a span skipped because its attributes do not
    serialise, or an event together with the attribute maps visited in its
    resource group up to and including its own. *)
Inductive JournalItem : Type :=
| SpanSkipped
| EventVisit (visited : list Attrs) (cx : SpanContext) (event : SpanEvent).

Section Resolver.
Context `{Externals}.

Definition reservedKey (r : Reserved) : string :=
  match r with
  | ProjectKey => ProjectIDAttribute
  | SessionKey => SessionIDAttribute
  | RequestKey => RequestIDAttribute
  end.

(** The resolver of an ordered sequence of attribute maps, outermost
    first: [setHighlightAttributes] on each map in turn. *)
Definition resolve (attributeMaps : list Attrs) (ids : Identifiers)
  : option Identifiers :=
  forEach setHighlightAttributes attributeMaps ids.

(** The routing rule in the words of the specification: the map and the
    key under which the record of an event is filed, if any. *)
Definition placement (cx : SpanContext) (event : SpanEvent)
    (ids : Identifiers) : option Placed :=
  if decide (ev_Name event = ExceptionEventName) then
    match exceptionEvent cx event with
    | inr err =>
        if decide (sessionID ids ≠ "") then
          Some (InTraceErrors (sessionID ids) err)
        else if decide (projectID ids ≠ "") then
          Some (InProjectErrors (projectID ids) err)
        else None
    | inl _ => None
    end
  else if decide (ev_Name event = LogName) then
    match logEvent cx event ids with
    | inr row =>
        if decide (projectID ids ≠ "") then
          Some (InProjectLogs (projectID ids) row)
        else None
    | inl _ => None
    end
  else None.

(** The journal of a traversal: [visited] is what the resource group has
    shown of its attribute maps so far. *)
Fixpoint journalEach {A : Type}
    (f : A → list Attrs → list JournalItem * list Attrs)
    (l : list A) (visited : list Attrs) : list JournalItem * list Attrs :=
  match l with
  | [] => ([], visited)
  | x :: l' =>
      let '(js, visited') := f x visited in
      let '(js', visited'') := journalEach f l' visited' in
      (js ++ js', visited'')
  end.

Definition eventJournal (cx : SpanContext) (event : SpanEvent)
    (visited : list Attrs) : list JournalItem * list Attrs :=
  let visited' := visited ++ [ev_Attributes event] in
  ([EventVisit visited' cx event], visited').

Definition spanJournal (i : nat) (resourceAttributes : Attrs)
    (sdkLanguage serviceName scopeName : string) (span : Span)
    (visited : list Attrs) : list JournalItem * list Attrs :=
  match json_Marshal (sp_Attributes span) with
  | None => ([SpanSkipped], visited)
  | Some tagsBytes =>
      journalEach
        (eventJournal (mkSpanContext i resourceAttributes sdkLanguage
                         serviceName scopeName span tagsBytes))
        (sp_Events span) (visited ++ [sp_Attributes span])
  end.

Definition scopeJournal (i : nat) (resourceAttributes : Attrs)
    (sdkLanguage serviceName : string) (scopeSpans : ScopeSpans)
    (visited : list Attrs) : list JournalItem * list Attrs :=
  journalEach
    (spanJournal i resourceAttributes sdkLanguage serviceName
       (ss_ScopeName scopeSpans))
    (ss_Spans scopeSpans) visited.

Definition resourceJournal (i : nat) (resourceSpans : ResourceSpans)
  : list JournalItem * list Attrs :=
  let resourceAttributes := rs_Attributes resourceSpans in
  journalEach
    (scopeJournal i resourceAttributes
       (castString (resourceAttributes !! TelemetrySDKLanguageKey) "")
       (castString (resourceAttributes !! ServiceNameKey) ""))
    (rs_ScopeSpans resourceSpans) [resourceAttributes].

Fixpoint batchJournal (spans : list ResourceSpans) (i : nat)
  : list JournalItem :=
  match spans with
  | [] => []
  | resourceSpans :: spans' =>
      fst (resourceJournal i resourceSpans) ++ batchJournal spans' (S i)
  end.

(** Replaying one step on its own: the identifiers of an event are
    resolved afresh from the maps the journal says were visited. *)
Definition replayItem (item : JournalItem) (st : TraceState)
  : option TraceState :=
  match item with
  | SpanSkipped => Some (warnTrace FailedToFormatAttributes st)
  | EventVisit visited cx event =>
      ids ← resolve visited noIdentifiers;
      Some (classifyEvent cx event ids st)
  end.

Definition replay (journal : list JournalItem) (st : TraceState)
  : option TraceState :=
  forEach replayItem journal st.

(** The record a step files, if any, and where. *)
Definition itemPlacement (item : JournalItem) : option Placed :=
  match item with
  | SpanSkipped => None
  | EventVisit visited cx event =>
      ids ← resolve visited noIdentifiers;
      placement cx event ids
  end.

Definition placements (req : list ResourceSpans) : list Placed :=
  omap itemPlacement (batchJournal req 0).

(** The identifiers an event would have were they derived from its own
    ancestors only: resource, span, event. *)
Definition ancestorIdentifiers (resourceSpans : ResourceSpans) (span : Span)
    (event : SpanEvent) : option Identifiers :=
  resolve [rs_Attributes resourceSpans; sp_Attributes span;
           ev_Attributes event] noIdentifiers.

(** The calls of [Submit] one after the other: the state they leave the
    queue in. *)
Definition sinkAfter (mem : Memory) (subs : list Submission) (k : Sink)
  : Sink :=
  foldl (λ k sub, fst (Submit mem sub k)) k subs.

(** The submissions [HandleTrace] and [HandleLog] have to make, in the
    order of their loops. *)
Definition tracePlan (st : TraceState) : list Submission :=
  sessionErrorSubmissions st ++ projectErrorSubmissions st
  ++ logSubmissions RangeProjectLogs (projectLogs st).

Definition logPlan (st : LogState) : list Submission :=
  logSubmissions RangeLogs (logRows st).

(** A response that follows a plan and stops at the first refusal. The
    calls made are the beginning of the plan, each once; each outcome is
    the queue's answer in the state the calls before it left; a refused
    call is the last one, all the calls before it were accepted, and the
    status is 503; when no call is refused the whole plan is made and the
    status is 200; the queue is left as the calls made leave it. *)
Definition stopsAtFirstFailure (mem : Memory) (plan : list Submission)
    (k : Sink) (resp : Response Sink) : Prop :=
  let made := fst <$> resp_Calls resp in
  made `prefix_of` plan
  ∧ resp_Sink resp = sinkAfter mem made k
  ∧ (∀ earlier sub ok later,
       resp_Calls resp = earlier ++ (sub, ok) :: later →
       ok = snd (Submit mem sub (sinkAfter mem (fst <$> earlier) k)))
  ∧ (∀ earlier sub later,
       resp_Calls resp = earlier ++ (sub, false) :: later →
       later = [] ∧ Forall (λ c, snd c = true) earlier
       ∧ resp_Status resp = StatusServiceUnavailable)
  ∧ (Forall (λ c, snd c = true) (resp_Calls resp) →
       made = plan ∧ resp_Status resp = StatusOK).

End Resolver.

(** ** A test double of the collaborators, and test requests *)

Definition lowerByte (c : ascii) : ascii :=
  let n := N_of_ascii c in
  if decide (65 ≤ n ≤ 90)%N then ascii_of_N (n + 32) else c.

Fixpoint lowerBytes (s : string) : string :=
  match s with
  | EmptyString => EmptyString
  | String c s' => String (lowerByte c) (lowerBytes s')
  end.

(** The SDK's keys; a verbose-id decoder that knows no id; a queue that
    keeps what it accepts and refuses the partition key ["down"]; maps
    ranged over in the order of [map_to_list]. *)
#[local] Instance testExternals : Externals := {|
  ProjectIDAttribute := "highlight.project_id";
  SessionIDAttribute := "highlight.session_id";
  RequestIDAttribute := "highlight.trace_id";
  ErrorURLKey := "URL";
  LogName := "log";
  LogSeverityKey := "log.severity";
  LogMessageKey := "log.message";
  FromVerboseID := λ _, None;
  formatStructureStackTrace := λ s, s;
  json_Marshal := λ _, Some "{}";
  strings_ToLower := lowerBytes;
  Sink := list Submission;
  Submit := λ _ sub k,
    if decide (sub_PartitionKey sub = "down") then (k, false)
    else (k ++ [sub], true);
  rangeOrder := λ V _ m, map_to_list m;
  rangeOrder_perm := λ V _ m, reflexivity (map_to_list m)
|}.

Definition exceptionAttrs (extra : list (string * AttrValue)) : Attrs :=
  list_to_map
    (extra ++ [("exception.stacktrace", VStr "main.go:1");
               ("exception.type", VStr "E")]).

(** One resource group of project ["1"] with two spans: an exception that
    sets session ["A"]; then an exception without a session attribute and
    an exception that sets session ["B"]. *)
Definition siblingSpan1 : Span :=
  mkSpan ∅ "t1" "s1"
    [mkEvent "exception"
       (exceptionAttrs [("highlight.session_id", VStr "A")]) 1].

Definition siblingEvent2 : SpanEvent :=
  mkEvent "exception" (exceptionAttrs []) 2.

Definition siblingSpan2 : Span :=
  mkSpan ∅ "t1" "s2"
    [siblingEvent2;
     mkEvent "exception"
       (exceptionAttrs [("highlight.session_id", VStr "B")]) 3].

Definition siblingResource : ResourceSpans :=
  mkResourceSpans {[ "highlight.project_id" := VStr "1" ]}
    [mkScopeSpans "scope" [siblingSpan1; siblingSpan2]].

(** The error record of an exception of [siblingResource], by the id of
    its span and its timestamp. *)
Definition siblingError (span : string) (ts : Z)
  : BackendErrorObjectInput :=
  mkError (AddrSessionID 0) (AddrRequestID 0) "t1" span "" "E" "scope"
    "main.go:1" ts "{}" "".

Definition testContext : SpanContext :=
  mkSpanContext 0 ∅ "go" "svc" "scope" (mkSpan ∅ "t" "s" []) "{}".

(** An exception with a stack trace and a message, and no type. *)
Definition untypedException : SpanEvent :=
  mkEvent "exception"
    (list_to_map [("exception.stacktrace", VStr "main.go:1");
                  ("exception.message", VStr "boom")]) 0.


(** A log event with a message and no severity. *)
Definition plainLogEvent : SpanEvent :=
  mkEvent "log" {[ "log.message" := VStr "hello" ]} 0.

(** Two attribute maps, outer first: the session is set, then given as
    the empty string. *)
Definition sessionThenEmpty : list Attrs :=
  [ {[ "highlight.session_id" := VStr "S" ]};
    {[ "highlight.session_id" := VStr "" ]} ].

(** A log record of project ["1"] with an empty body, whose attributes
    use the message and severity keys of span log events. *)
Definition emptyBodyLog : LogRecord :=
  mkLogRecord
    (list_to_map [("highlight.project_id", VStr "1");
                  ("log.message", VStr "m");
                  ("log.severity", VStr "info")])
    (VStr "") "INFO" 9 "t" "s" 0.

Definition emptyBodyRequest : list ResourceLogs :=
  [mkResourceLogs ∅ [mkScopeLogs [emptyBodyLog]]].

(** A request with an exception of session ["A"] and one of session
    ["down"], the partition key the test queue refuses. *)
Definition twoSessions : list ResourceSpans :=
  [mkResourceSpans ∅
     [mkScopeSpans "scope"
        [mkSpan ∅ "t1" "s1"
           [mkEvent "exception"
              (exceptionAttrs [("highlight.session_id", VStr "A")]) 1;
            mkEvent "exception"
              (exceptionAttrs [("highlight.session_id", VStr "down")]) 2]]]].

(** The test queue before any submission. *)
Definition emptyQueue : @Sink testExternals := @nil Submission.

(** ** The attribute maps and the records of a request *)

Section Maps.
Context `{Externals}.




End Maps.

(** All the events of a trace request and all the records of a log
    request, in the order of the traversal. *)
Definition batchEvents (req : list ResourceSpans) : list SpanEvent :=
  mjoin (sp_Events
          <$> mjoin (ss_Spans <$> mjoin (rs_ScopeSpans <$> req))).

Definition batchLogRecords (req : list ResourceLogs) : list LogRecord :=
  mjoin (sl_LogRecords <$> mjoin (rl_ScopeLogs <$> req)).

(** ** Counting what a request leaves behind *)

(** The number of records in a map. *)
Definition recordCount {V : Type} (m : gmap string (list V)) : nat :=
  map_fold (λ _ l n, (List.length l + n)%nat) 0%nat m.

(** The records and log lines of [HandleTrace] and of [HandleLog]. *)
Definition traceOutcomes (st : TraceState) : nat :=
  (recordCount (traceErrors st) + recordCount (projectErrors st)
   + recordCount (projectLogs st) + List.length (traceDiagnostics st))%nat.

Definition logOutcomes (st : LogState) : nat :=
  (recordCount (logRows st) + List.length (logDiagnostics st))%nat.

(** All the spans of a trace request. *)
Definition batchSpans (req : list ResourceSpans) : list Span :=
  mjoin (ss_Spans <$> mjoin (rs_ScopeSpans <$> req)).

Section Accounts.
Context `{Externals}.

(** What the traversal has to account for: one for an event named as an
    exception or as a log, one for a span that is skipped, and for a span
    that is not skipped what its events amount to. *)
Definition eventAccount (event : SpanEvent) : nat :=
  if decide (ev_Name event = ExceptionEventName ∨ ev_Name event = LogName)
  then 1%nat else 0%nat.

Definition spanAccount (span : Span) : nat :=
  match json_Marshal (sp_Attributes span) with
  | None => 1%nat
  | Some _ => sum_list (eventAccount <$> sp_Events span)
  end.

Definition traceAccount (req : list ResourceSpans) : nat :=
  sum_list (spanAccount <$> batchSpans req).

End Accounts.

(** ** The journal of [HandleLog] *)

(** One log record of the traversal of a resource group, with what it
    needs to be replayed on its own: the attribute maps visited in its
    resource group up to and including its own, and the attributes and
    service name of the resource. *)
Inductive LogJournalItem : Type :=
| LogVisit (visited : list Attrs) (resourceAttributes : Attrs)
    (serviceName : string) (logRecord : LogRecord).

Fixpoint logVisits (resourceAttributes : Attrs) (serviceName : string)
    (visited : list Attrs) (logRecords : list LogRecord)
  : list LogJournalItem :=
  match logRecords with
  | [] => []
  | logRecord :: logRecords' =>
      let visited' := visited ++ [lg_Attributes logRecord] in
      LogVisit visited' resourceAttributes serviceName logRecord
      :: logVisits resourceAttributes serviceName visited' logRecords'
  end.

(** Whether a filed row is under the key [k]. *)
Definition placedUnder (k : string) (p : string * LogRow) : option LogRow :=
  if decide (fst p = k) then Some (snd p) else None.

Section LogJournal.
Context `{Externals}.

Definition resourceLogJournal (resourceLogs : ResourceLogs)
  : list LogJournalItem :=
  logVisits (rl_Attributes resourceLogs)
    (castString (rl_Attributes resourceLogs !! ServiceNameKey) "")
    [rl_Attributes resourceLogs]
    (mjoin (sl_LogRecords <$> rl_ScopeLogs resourceLogs)).

Definition logJournal (req : list ResourceLogs) : list LogJournalItem :=
  mjoin (resourceLogJournal <$> req).

(** Replaying one record on its own: its identifiers are resolved afresh
    from the maps the journal says were visited. *)
Definition replayLogItem (item : LogJournalItem) (st : LogState)
  : option LogState :=
  match item with
  | LogVisit visited resourceAttributes serviceName logRecord =>
      ids ← resolve visited noIdentifiers;
      Some (match logRecordRow resourceAttributes serviceName logRecord ids
            with
            | inl d => warnLog d st
            | inr logRow => routeLogRecord ids logRow st
            end)
  end.

(** The row a record files, if any, and its key. *)
Definition logItemPlacement (item : LogJournalItem)
  : option (string * LogRow) :=
  match item with
  | LogVisit visited resourceAttributes serviceName logRecord =>
      ids ← resolve visited noIdentifiers;
      match logRecordRow resourceAttributes serviceName logRecord ids with
      | inr logRow =>
          if decide (projectID ids ≠ "") then Some (projectID ids, logRow)
          else None
      | inl _ => None
      end
  end.

Definition logPlacements (req : list ResourceLogs)
  : list (string * LogRow) :=
  omap logItemPlacement (logJournal req).

End LogJournal.

(** ** From the HTTP request to the export request *)

(** What the first lines of the two handlers call: reading the body,
    opening and reading the gzip stream, decoding the protobuf message.
    Each gives the message of its error ([err.Error()]) or its result. *)
Class Wire : Type := {
  RequestBody : Type;
  GzipReader : Type;
  io_ReadAll : RequestBody → string + string;
  gzip_NewReader : string → string + GzipReader;
  io_ReadAll_gzip : GzipReader → string + string;
  traces_UnmarshalProto : string → string + list ResourceSpans;
  logs_UnmarshalProto : string → string + list ResourceLogs
}.

(** [http.StatusBadRequest] *)
Definition StatusBadRequest : Z := 400.

(** What the client gets, with what the handler has done: the text of the
    response body and the response. *)
Record Answer (S : Type) : Type := mkAnswer {
  ans_Text : string;
  ans_Response : Response S
}.

Arguments mkAnswer {S} _ _.
Arguments ans_Text {S} _.
Arguments ans_Response {S} _.

Definition newline : string := String "010"%char EmptyString.

(** [http.Error(w, error, code)] writes the status and the error followed
    by a newline; the handler then returns, having called no queue. *)
Definition httpError {S : Type} (error : string) (code : Z) (k : S)
  : Answer S :=
  mkAnswer (String.append error newline) (mkResponse code [] k).

Section Http.
Context `{Externals} `{Wire}.

(** Lines 72-99 of [HandleTrace]: the export request, or the message of
    the first error. *)
Definition decodeTrace (body : RequestBody) : string + list ResourceSpans :=
  match io_ReadAll body with
  | inl err => inl err
  | inr body =>
      match gzip_NewReader body with
      | inl err => inl err
      | inr gz =>
          match io_ReadAll_gzip gz with
          | inl err => inl err
          | inr output => traces_UnmarshalProto output
          end
      end
  end.

(** Lines 281-308 of [HandleLog]. *)
Definition decodeLog (body : RequestBody) : string + list ResourceLogs :=
  match io_ReadAll body with
  | inl err => inl err
  | inr body =>
      match gzip_NewReader body with
      | inl err => inl err
      | inr gz =>
          match io_ReadAll_gzip gz with
          | inl err => inl err
          | inr output => logs_UnmarshalProto output
          end
      end
  end.

(** [func (o *Handler) HandleTrace(w http.ResponseWriter, r *http.Request)],
    from the body of the request. *)
Definition HandleTraceHTTP (body : RequestBody) (k : Sink)
  : option (Answer Sink) :=
  match decodeTrace body with
  | inl err => Some (httpError err StatusBadRequest k)
  | inr req => resp ← HandleTrace req k; Some (mkAnswer "" resp)
  end.

(** [func (o *Handler) HandleLog(w http.ResponseWriter, r *http.Request)] *)
Definition HandleLogHTTP (body : RequestBody) (k : Sink)
  : option (Answer Sink) :=
  match decodeLog body with
  | inl err => Some (httpError err StatusBadRequest k)
  | inr req => resp ← HandleLog req k; Some (mkAnswer "" resp)
  end.

End Http.

(** ** The decimal form of a project id *)

(** The decimal numeral of an integer, with a minus sign when it is
    negative: what [strconv.Itoa] prints. *)
Definition decimal (z : Z) : string :=
  DecimalString.NilZero.string_of_int (Z.to_int z).

(** ** More test requests *)

(** The gzip reader of the test refuses the empty body; everything else
    decodes to the empty request. *)
#[local] Instance testWire : Wire := {|
  RequestBody := string;
  GzipReader := string;
  io_ReadAll := λ body, inr body;
  gzip_NewReader := λ body,
    if decide (body = "") then inl "EOF" else inr body;
  io_ReadAll_gzip := λ gz, inr gz;
  traces_UnmarshalProto := λ _, inr [];
  logs_UnmarshalProto := λ _, inr []
|}.

(** A request with one span log event of project ["7"]. *)
Definition spanLogRequest : list ResourceSpans :=
  [mkResourceSpans
     (list_to_map [("highlight.project_id", VStr "7");
                   ("service.name", VStr "api")])
     [mkScopeSpans "scope" [mkSpan ∅ "t1" "s1" [plainLogEvent]]]].

(** A request whose only event is neither an exception nor a log. *)
Definition quietRequest : list ResourceSpans :=
  [mkResourceSpans ∅
     [mkScopeSpans "scope"
        [mkSpan ∅ "t1" "s1" [mkEvent "checkpoint" ∅ 1]]]].

(** * Properties *)

(** ** Loops *)

Lemma forEach_app {A S : Type} (body : A → S → option S) (l1 l2 : list A)
    (s : S) :
  forEach body (l1 ++ l2) s = forEach body l1 s ≫= forEach body l2.
Proof.
  revert s. induction l1 as [|x l1 IH]; intros s; simpl; [done|].
  destruct (body x s) as [s'|]; simpl; [apply IH | done].
Qed.


Section Properties.
Context `{Externals}.

(** ** [castString] and [setHighlightAttributes] *)

Lemma castString_empty_fallback (v : option AttrValue) :
  castString v "" = assertStringOk v.
Proof. unfold castString. by case_decide. Qed.

Lemma castString_string (s fallback : string) :
  s ≠ "" → castString (Some (VStr s)) fallback = s.
Proof. intros Hs. unfold castString; simpl. by case_decide. Qed.

(** What one block of [setHighlightAttributes] can do to its variable. *)
Lemma setAttribute_cases (attrs : Attrs) (key x y : string) :
  setAttribute attrs key x = Some y →
  (y = x ∧ (attrs !! key = None ∨ attrs !! key = Some (VStr "")))
  ∨ (y ≠ "" ∧ attrs !! key = Some (VStr y)).
Proof.
  unfold setAttribute. destruct (attrs !! key) as [p|] eqn:Hp.
  - destruct p; simpl; try discriminate.
    case_decide as Hs; intros [= <-].
    + right. done.
    + left. split; [done|]. right. f_equal. f_equal.
      destruct (decide (s = "")); [done | contradiction].
  - intros [= <-]. left. auto.
Qed.

Lemma setHighlightAttributes_field (attrs : Attrs) (ids ids' : Identifiers)
    (r : Reserved) :
  setHighlightAttributes attrs ids = Some ids' →
  setAttribute attrs (reservedKey r) (identifier r ids)
  = Some (identifier r ids').
Proof.
  unfold setHighlightAttributes. intros Hs.
  destruct (setAttribute attrs ProjectIDAttribute (projectID ids)) as [p|] eqn:Hp;
    simpl in Hs; [|done].
  destruct (setAttribute attrs SessionIDAttribute (sessionID ids)) as [s|] eqn:Hss;
    simpl in Hs; [|done].
  destruct (setAttribute attrs RequestIDAttribute (requestID ids)) as [q|] eqn:Hq;
    simpl in Hs; [|done].
  injection Hs as <-. by destruct r.
Qed.

Lemma setHighlightAttributes_non_string (attrs : Attrs) (ids : Identifiers)
    (r : Reserved) (v : AttrValue) :
  attrs !! reservedKey r = Some v → assertString v = None →
  setHighlightAttributes attrs ids = None.
Proof.
  intros Hv Hp.
  destruct (setHighlightAttributes attrs ids) as [ids'|] eqn:Hs; [|done].
  apply (setHighlightAttributes_field _ _ _ r) in Hs.
  unfold setAttribute in Hs. rewrite Hv, Hp in Hs. done.
Qed.

Lemma resolve_app (maps1 maps2 : list Attrs) (ids : Identifiers) :
  resolve (maps1 ++ maps2) ids = resolve maps1 ids ≫= resolve maps2.
Proof. apply forEach_app. Qed.

Lemma resolve_snoc (maps : list Attrs) (m : Attrs) (ids : Identifiers) :
  resolve (maps ++ [m]) ids = resolve maps ids ≫= setHighlightAttributes m.
Proof.
  rewrite resolve_app. destruct (resolve maps ids) as [ids1|]; simpl; [|done].
  unfold resolve; simpl. by destruct (setHighlightAttributes m ids1).
Qed.

(** A resolved identifier is the one it started from or a non-empty
    string one of the maps holds under the reserved key. *)
Lemma resolve_origin (maps : list Attrs) (ids ids' : Identifiers)
    (r : Reserved) :
  resolve maps ids = Some ids' →
  identifier r ids' = identifier r ids
  ∨ (identifier r ids' ≠ ""
     ∧ ∃ m, m ∈ maps ∧ m !! reservedKey r = Some (VStr (identifier r ids'))).
Proof.
  unfold resolve. revert ids. induction maps as [|m maps IH]; intros ids; simpl.
  - intros [= <-]. by left.
  - destruct (setHighlightAttributes m ids) as [ids1|] eqn:Hm; simpl; [|done].
    intros Hrest. apply (setHighlightAttributes_field _ _ _ r) in Hm.
    apply setAttribute_cases in Hm.
    destruct (IH _ Hrest) as [Heq | (Hne & m' & Hin & Hm')].
    + rewrite Heq. destruct Hm as [[-> _] | [Hne Hlook]]; [by left|].
      right. split; [done|]. exists m. split; [left | done].
    + right. split; [done|]. exists m'. split; [by right | done].
Qed.

Lemma resolve_keeps_nonempty (maps : list Attrs) (ids ids' : Identifiers)
    (r : Reserved) :
  resolve maps ids = Some ids' →
  identifier r ids ≠ "" → identifier r ids' ≠ "".
Proof.
  intros Hres Hne. destruct (resolve_origin _ _ _ r Hres) as [-> | [? _]]; done.
Qed.

(** C3, at the input where the code departs from it: a reserved key that
    holds an integer. [setHighlightAttributes] asserts the value to be a
    string without the comma-ok form that [castString] uses, so it panics
    instead of taking the value as absent, and so do both handlers for a
    request with such a resource attribute. *)
Theorem reserved_key_non_string_panics (r : Reserved) (ids : Identifiers)
    (k : Sink) :
  setHighlightAttributes {[ reservedKey r := VInt 42 ]} ids = None
  ∧ HandleTrace [mkResourceSpans {[ reservedKey r := VInt 42 ]} []] k = None
  ∧ HandleLog [mkResourceLogs {[ reservedKey r := VInt 42 ]} []] k = None.
Proof.
  assert (Hp : ∀ ids0,
    setHighlightAttributes {[ reservedKey r := VInt 42 ]} ids0 = None).
  { intros ids0. apply (setHighlightAttributes_non_string _ _ r (VInt 42));
      [apply lookup_singleton_eq | done]. }
  split; [apply Hp|]. split.
  - unfold HandleTrace, classifyTrace; simpl. unfold resourceBody; simpl.
    by rewrite Hp.
  - unfold HandleLog, classifyLog; simpl. unfold resourceLogsBody; simpl.
    by rewrite Hp.
Qed.

(** C7: over any ordered sequence of attribute maps that resolves, an
    identifier differs from the one it started from only if it is a
    non-empty string that one of the maps holds under the reserved key; a
    non-empty identifier never becomes empty; and a map that holds the
    empty string under the reserved key, at whatever depth of the
    sequence, leaves the identifier resolved before it as it is. *)
Theorem resolve_overrides_only_by_nonempty_string (maps : list Attrs)
    (ids ids' : Identifiers) (r : Reserved) :
  resolve maps ids = Some ids' →
  (identifier r ids' ≠ identifier r ids →
     identifier r ids' ≠ ""
     ∧ ∃ m, m ∈ maps ∧ m !! reservedKey r = Some (VStr (identifier r ids')))
  ∧ (identifier r ids ≠ "" → identifier r ids' ≠ "")
  ∧ (∀ outer m inner, maps = outer ++ m :: inner →
       m !! reservedKey r = Some (VStr "") →
       ∃ ids1 ids2, resolve outer ids = Some ids1
         ∧ setHighlightAttributes m ids1 = Some ids2
         ∧ identifier r ids2 = identifier r ids1).
Proof.
  intros Hres. split; [|split].
  - intros Hne. destruct (resolve_origin _ _ _ r Hres) as [? | ?]; done.
  - by apply (resolve_keeps_nonempty maps).
  - intros outer m inner -> Hm. rewrite resolve_app in Hres.
    destruct (resolve outer ids) as [ids1|]; simpl in Hres; [|done].
    unfold resolve in Hres; simpl in Hres.
    destruct (setHighlightAttributes m ids1) as [ids2|] eqn:H2;
      simpl in Hres; [|done].
    exists ids1, ids2. split; [done|]. split; [done|].
    apply (setHighlightAttributes_field _ _ _ r) in H2.
    apply setAttribute_cases in H2.
    destruct H2 as [[-> _] | [Hne Hlook]]; [done|].
    rewrite Hm in Hlook. injection Hlook as Hempty. by rewrite <- Hempty in Hne.
Qed.

(** ** The exception branch *)

Lemma exceptionEvent_built (cx : SpanContext) (event : SpanEvent) :
  castString (ev_Attributes event !! ExceptionStacktraceKey) "" ≠ "" →
  castString (ev_Attributes event !! ExceptionTypeKey) "" ≠ ""
  ∨ castString (ev_Attributes event !! ExceptionMessageKey) "" ≠ "" →
  ∃ err, exceptionEvent cx event = inr err
    ∧ be_Type err
      = castString
          (Some (VStr (castString (ev_Attributes event !! ExceptionTypeKey) "")))
          "BACKEND"
    ∧ be_Event err
      = castString (ev_Attributes event !! ExceptionMessageKey) "".
Proof.
  intros Hst Htm. unfold exceptionEvent.
  destruct (decide (castString (ev_Attributes event !! ExceptionStacktraceKey) "" = ""));
    [done|].
  destruct (decide (castString (ev_Attributes event !! ExceptionTypeKey) "" = ""
                    ∧ castString (ev_Attributes event !! ExceptionMessageKey) "" = ""))
    as [[? ?]|_]; [by destruct Htm|].
  eexists. split; [done|]. split; [done|]. simpl.
  rewrite castString_empty_fallback. done.
Qed.



(** C9: an exception event with a non-empty stack trace, a non-empty
    message and an empty type (missing, not a string, or the empty string)
    builds an error record whose type is the literal ["BACKEND"] and whose
    message is the event's. *)
Theorem exception_without_type_is_BACKEND (cx : SpanContext)
    (event : SpanEvent) (stack msg : string) :
  ev_Attributes event !! ExceptionStacktraceKey = Some (VStr stack) →
  stack ≠ "" →
  castString (ev_Attributes event !! ExceptionTypeKey) "" = "" →
  ev_Attributes event !! ExceptionMessageKey = Some (VStr msg) →
  msg ≠ "" →
  ∃ err, exceptionEvent cx event = inr err
    ∧ be_Type err = "BACKEND" ∧ be_Event err = msg.
Proof.
  intros Hst Hstne Hty Hmsg Hmsgne.
  destruct (exceptionEvent_built cx event) as (err & Herr & Htype & Hevent).
  - rewrite Hst. by rewrite castString_string.
  - right. rewrite Hmsg. by rewrite castString_string.
  - exists err. split; [done|]. rewrite Htype, Hevent, Hty, Hmsg.
    split; [done|]. by apply castString_string.
Qed.

(** ** The log rows *)

Lemma stringAttributes_lookup (attrs : Attrs) (k s : string) :
  stringAttributes attrs !! k = Some s
  ↔ s ≠ "" ∧ attrs !! k = Some (VStr s).
Proof.
  unfold stringAttributes. rewrite map_lookup_imap.
  destruct (attrs !! k) as [v|]; simpl;
    [|split; [done | by intros [_ ?]]].
  rewrite castString_empty_fallback. case_decide as Hv.
  - split.
    + intros [= <-]. split; [done|]. destruct v; simpl in *; done.
    + intros [_ [= ->]]. done.
  - split; [done|]. intros [Hs [= ->]]. simpl in Hv. contradiction.
Qed.

Lemma logEventAttributes_lookup (attrs : Attrs) (k s : string) :
  logEventAttributes attrs !! k = Some s
  ↔ s ≠ "" ∧ attrs !! k = Some (VStr s)
    ∧ k ≠ LogMessageKey ∧ k ≠ LogSeverityKey.
Proof.
  unfold logEventAttributes. rewrite map_lookup_imap.
  destruct (attrs !! k) as [v|]; simpl;
    [|split; [done | by intros (_ & ? & _)]].
  rewrite castString_empty_fallback. case_decide as Hv.
  - split; [done|]. intros (Hs & [= ->] & ? & ?). simpl in Hv.
    destruct Hv as [?|[?|?]]; done.
  - split.
    + intros [= <-]. split; [tauto|]. split; [|tauto].
      destruct v; simpl in *; try done; exfalso; tauto.
    + intros (_ & [= ->] & _). done.
Qed.

Lemma ParseLevel_range (lvl : string) :
  (0 ≤ fst (ParseLevel lvl) ≤ 6)%Z
  ∧ (snd (ParseLevel lvl) = false → fst (ParseLevel lvl) = 0%Z).
Proof. unfold ParseLevel. repeat case_decide; simpl; split; (lia || done). Qed.

Lemma int32_small (x : Z) : (0 ≤ x ≤ 6)%Z → int32 x = x.
Proof.
  intros Hx. unfold int32. rewrite Z.mod_small; lia.
Qed.

(** The row of the log branch, when there is one. *)
Lemma logEvent_inr (cx : SpanContext) (event : SpanEvent)
    (ids : Identifiers) (row : LogRow) :
  logEvent cx event ids = inr row →
  ∃ n, projectToInt (projectID ids) = Some n
    ∧ castString (ev_Attributes event !! LogMessageKey) "" ≠ ""
    ∧ lr_Body row = castString (ev_Attributes event !! LogMessageKey) ""
    ∧ lr_ProjectId row = uint32 n
    ∧ lr_SecureSessionId row = sessionID ids
    ∧ lr_LogAttributes row = logEventAttributes (ev_Attributes event)
    ∧ lr_SeverityText row
      = castString (ev_Attributes event !! LogSeverityKey) "unknown"
    ∧ lr_SeverityNumber row
      = int32 (fst (ParseLevel
          (castString (ev_Attributes event !! LogSeverityKey) "unknown"))).
Proof.
  unfold logEvent. case_decide as Hmsg; [done|].
  destruct (projectToInt (projectID ids)) as [n|]; [|done].
  intros [= <-]. exists n. simpl. done.
Qed.

Lemma logEvent_built (cx : SpanContext) (event : SpanEvent)
    (ids : Identifiers) (n : Z) :
  castString (ev_Attributes event !! LogMessageKey) "" ≠ "" →
  projectToInt (projectID ids) = Some n →
  ∃ row, logEvent cx event ids = inr row.
Proof.
  intros Hmsg Hn. unfold logEvent. rewrite decide_False by done.
  rewrite Hn. eauto.
Qed.

Lemma logRecordRow_inr (resourceAttributes : Attrs) (serviceName : string)
    (logRecord : LogRecord) (ids : Identifiers) (row : LogRow) :
  logRecordRow resourceAttributes serviceName logRecord ids = inr row →
  ∃ n, projectToInt (projectID ids) = Some n
    ∧ lr_Body row = bodyStr (lg_Body logRecord)
    ∧ lr_ProjectId row = uint32 n
    ∧ lr_LogAttributes row = stringAttributes (lg_Attributes logRecord).
Proof.
  unfold logRecordRow.
  destruct (projectToInt (projectID ids)) as [n|]; [|done].
  intros [= <-]. exists n. done.
Qed.


(** C8: in the log branch of [HandleTrace] the severity never decides
    whether a row is built (the message and the project id do). The row's
    severity text is the event's severity, ["unknown"] when the event has
    none, and its severity number is the level the text parses to, or the
    one number 0 when the text is not the name of a level. *)
Theorem severity_never_fails (cx : SpanContext) (event : SpanEvent)
    (ids : Identifiers) :
  let logSev :=
    castString (ev_Attributes event !! LogSeverityKey) "unknown" in
  (ev_Attributes event !! LogSeverityKey = None → logSev = "unknown")
  ∧ ((∃ row, logEvent cx event ids = inr row)
     ↔ castString (ev_Attributes event !! LogMessageKey) "" ≠ ""
       ∧ is_Some (projectToInt (projectID ids)))
  ∧ (∀ row, logEvent cx event ids = inr row →
       lr_SeverityText row = logSev
       ∧ lr_SeverityNumber row = fst (ParseLevel logSev)
       ∧ (0 ≤ lr_SeverityNumber row ≤ 6)%Z
       ∧ (snd (ParseLevel logSev) = false → lr_SeverityNumber row = 0%Z)).
Proof.
  intros logSev. split; [|split].
  - intros Hnone. unfold logSev. by rewrite Hnone.
  - split.
    + intros [row Hrow]. apply logEvent_inr in Hrow as (n & Hn & Hmsg & _).
      split; [done | by exists n].
    + intros [Hmsg [n Hn]]. by apply (logEvent_built _ _ _ n).
  - intros row Hrow.
    apply logEvent_inr in Hrow as (n & _ & _ & _ & _ & _ & _ & Htext & Hnum).
    destruct (ParseLevel_range logSev) as [Hrange Hzero].
    fold logSev in Hnum. rewrite int32_small in Hnum by done.
    rewrite Hnum. repeat split; try done; lia.
Qed.

(** ** The project id *)

Lemma parseDigits_nonneg (s : string) (acc n : Z) :
  (0 ≤ acc)%Z → parseDigits s acc = Some n → (0 ≤ n)%Z.
Proof.
  revert acc. induction s as [|c s IH]; intros acc Hacc; simpl.
  - by intros [= <-].
  - unfold digitValue. case_decide as Hd; simpl; [|done].
    apply IH. lia.
Qed.

Lemma ParseInt_10_32_range (s : string) (z : Z) :
  ParseInt_10_32 s = Some z → (- 2 ^ 31 ≤ z < 2 ^ 31)%Z.
Proof.
  unfold ParseInt_10_32. destruct s as [|c rest]; [done|].
  set (sd := if decide (c = "+"%char) then (false, rest)
             else if decide (c = "-"%char) then (true, rest)
             else (false, String c rest)).
  destruct sd as [neg digits]. destruct digits as [|d ds]; [done|].
  destruct (parseDigits (String d ds) 0) as [un|] eqn:Hun; simpl; [|done].
  apply parseDigits_nonneg in Hun; [|done].
  destruct neg; case_decide; intros [= <-]; lia.
Qed.

(** C10: a project id that [strconv.ParseInt] reads as a signed 32-bit
    integer normalises without error to that integer, negative ones
    included, and the row of either handler stores it modulo 2^32: a
    negative [z] is stored as [z + 2^32]. *)
Theorem signed_project_id_wraps (s : string) (z : Z) (cx : SpanContext)
    (event : SpanEvent) (resourceAttributes : Attrs) (serviceName : string)
    (logRecord : LogRecord) (ids : Identifiers) :
  ParseInt_10_32 s = Some z →
  projectID ids = s →
  castString (ev_Attributes event !! LogMessageKey) "" ≠ "" →
  projectToInt s = Some z
  ∧ (- 2 ^ 31 ≤ z < 2 ^ 31)%Z
  ∧ (∃ row, logEvent cx event ids = inr row
       ∧ lr_ProjectId row = (z mod 2 ^ 32)%Z
       ∧ (0 ≤ lr_ProjectId row < 2 ^ 32)%Z
       ∧ ((z < 0)%Z → lr_ProjectId row = (z + 2 ^ 32)%Z))
  ∧ (∃ row, logRecordRow resourceAttributes serviceName logRecord ids
            = inr row
       ∧ lr_ProjectId row = (z mod 2 ^ 32)%Z).
Proof.
  intros Hparse Hids Hmsg.
  assert (Hp : projectToInt s = Some z).
  { unfold projectToInt. by rewrite Hparse. }
  pose proof (ParseInt_10_32_range _ _ Hparse) as Hrange.
  split; [done|]. split; [done|]. split.
  - rewrite <- Hids in Hp.
    destruct (logEvent_built cx event ids z Hmsg Hp) as [row Hrow].
    exists row. split; [done|].
    apply logEvent_inr in Hrow as (n & Hn & _ & _ & Hpid & _).
    rewrite Hp in Hn. injection Hn as <-. rewrite Hpid. unfold uint32.
    split; [done|]. split; [apply Z.mod_pos_bound; lia|].
    intros Hneg. symmetry. apply Z.mod_unique with (-1)%Z; lia.
  - unfold logRecordRow. rewrite Hids, Hp. eexists. split; done.
Qed.

(** ** The traversal and its journal *)

Lemma replay_app (j1 j2 : list JournalItem) (st : TraceState) :
  replay (j1 ++ j2) st = replay j1 st ≫= replay j2.
Proof. apply forEach_app. Qed.

(** A loop whose body agrees with its journal agrees with the journal of
    the loop. *)
Lemma forEach_journal {A : Type}
    (body : A → Identifiers * TraceState → option (Identifiers * TraceState))
    (jf : A → list Attrs → list JournalItem * list Attrs) (l : list A) :
  (∀ x ids st visited ids' st',
     resolve visited noIdentifiers = Some ids →
     body x (ids, st) = Some (ids', st') →
     resolve (snd (jf x visited)) noIdentifiers = Some ids'
     ∧ replay (fst (jf x visited)) st = Some st') →
  ∀ ids st visited ids' st',
    resolve visited noIdentifiers = Some ids →
    forEach body l (ids, st) = Some (ids', st') →
    resolve (snd (journalEach jf l visited)) noIdentifiers = Some ids'
    ∧ replay (fst (journalEach jf l visited)) st = Some st'.
Proof.
  intros Hstep. induction l as [|x l IH]; intros ids st visited ids' st' Hv;
    simpl.
  - intros [= <- <-]. done.
  - destruct (body x (ids, st)) as [[ids1 st1]|] eqn:Hx; simpl; [|done].
    intros Hl. destruct (Hstep _ _ _ _ _ _ Hv Hx) as [Hv1 Hr1].
    destruct (jf x visited) as [js visited1]; simpl in *.
    destruct (IH _ _ _ _ _ Hv1 Hl) as [Hv2 Hr2].
    destruct (journalEach jf l visited1) as [js' visited2]; simpl in *.
    split; [done|]. rewrite replay_app, Hr1. done.
Qed.

Lemma eventBody_journal (cx : SpanContext) (event : SpanEvent)
    (ids : Identifiers) (st : TraceState) (visited : list Attrs)
    (ids' : Identifiers) (st' : TraceState) :
  resolve visited noIdentifiers = Some ids →
  eventBody cx event (ids, st) = Some (ids', st') →
  resolve (snd (eventJournal cx event visited)) noIdentifiers = Some ids'
  ∧ replay (fst (eventJournal cx event visited)) st = Some st'.
Proof.
  intros Hv. unfold eventBody.
  destruct (setHighlightAttributes (ev_Attributes event) ids) as [ids1|] eqn:H1;
    simpl; [|done].
  intros [= <- <-].
  assert (Hv' : resolve (visited ++ [ev_Attributes event]) noIdentifiers
                = Some ids1).
  { rewrite resolve_snoc, Hv. done. }
  split; [done|]. unfold replay; simpl. by rewrite Hv'.
Qed.

Lemma spanBody_journal (i : nat) (resourceAttributes : Attrs)
    (sdkLanguage serviceName scopeName : string) (span : Span)
    (ids : Identifiers) (st : TraceState) (visited : list Attrs)
    (ids' : Identifiers) (st' : TraceState) :
  resolve visited noIdentifiers = Some ids →
  spanBody i resourceAttributes sdkLanguage serviceName scopeName span
    (ids, st) = Some (ids', st') →
  resolve (snd (spanJournal i resourceAttributes sdkLanguage serviceName
                  scopeName span visited)) noIdentifiers = Some ids'
  ∧ replay (fst (spanJournal i resourceAttributes sdkLanguage serviceName
                   scopeName span visited)) st = Some st'.
Proof.
  intros Hv. unfold spanBody, spanJournal.
  destruct (json_Marshal (sp_Attributes span)) as [tagsBytes|].
  - destruct (setHighlightAttributes (sp_Attributes span) ids) as [ids1|] eqn:H1;
      simpl; [|done].
    apply forEach_journal; [apply eventBody_journal|].
    rewrite resolve_snoc, Hv. done.
  - intros [= <- <-]. done.
Qed.

Lemma scopeBody_journal (i : nat) (resourceAttributes : Attrs)
    (sdkLanguage serviceName : string) (scopeSpans : ScopeSpans)
    (ids : Identifiers) (st : TraceState) (visited : list Attrs)
    (ids' : Identifiers) (st' : TraceState) :
  resolve visited noIdentifiers = Some ids →
  scopeBody i resourceAttributes sdkLanguage serviceName scopeSpans
    (ids, st) = Some (ids', st') →
  resolve (snd (scopeJournal i resourceAttributes sdkLanguage serviceName
                  scopeSpans visited)) noIdentifiers = Some ids'
  ∧ replay (fst (scopeJournal i resourceAttributes sdkLanguage serviceName
                   scopeSpans visited)) st = Some st'.
Proof.
  unfold scopeBody, scopeJournal. apply forEach_journal.
  intros span. apply spanBody_journal.
Qed.

Lemma resourceBody_journal (i : nat) (resourceSpans : ResourceSpans)
    (st : TraceState) (ids' : Identifiers) (st' : TraceState) :
  resourceBody i resourceSpans st = Some (ids', st') →
  resolve (snd (resourceJournal i resourceSpans)) noIdentifiers = Some ids'
  ∧ replay (fst (resourceJournal i resourceSpans)) st = Some st'.
Proof.
  unfold resourceBody, resourceJournal.
  destruct (setHighlightAttributes (rs_Attributes resourceSpans) noIdentifiers)
    as [ids1|] eqn:H1; simpl; [|done].
  apply forEach_journal.
  - intros scopeSpans. apply scopeBody_journal.
  - unfold resolve; simpl. by rewrite H1.
Qed.

Lemma resourceLoop_journal (spans : list ResourceSpans) (i : nat)
    (mem : Memory) (st : TraceState) (mem' : Memory) (st' : TraceState) :
  resourceLoop spans i (mem, st) = Some (mem', st') →
  replay (batchJournal spans i) st = Some st'.
Proof.
  revert i mem st. induction spans as [|r spans IH]; intros i mem st; simpl.
  - intros [= <- <-]. done.
  - destruct (resourceBody i r st) as [[ids1 st1]|] eqn:Hr; simpl; [|done].
    intros Hl. apply resourceBody_journal in Hr as [_ Hr].
    rewrite replay_app, Hr. simpl. by apply (IH _ _ _ Hl).
Qed.

(** The classification of a batch is the replay of its journal: every
    event is classified with the identifiers resolved, from empty ones,
    over the attribute maps visited in its resource group up to the event
    itself. *)
Lemma classifyTrace_replay (req : list ResourceSpans) (mem : Memory)
    (st : TraceState) :
  classifyTrace req = Some (mem, st) →
  replay (batchJournal req 0) emptyTraceState = Some st.
Proof. apply resourceLoop_journal. Qed.

(** The maps an event's journal entry lists start at the attributes of its
    resource group and end at its own. *)
Lemma journalEach_visited {A : Type}
    (jf : A → list Attrs → list JournalItem * list Attrs) (l : list A)
    (first : Attrs) (P : SpanContext → Prop) :
  (∀ x visited, head visited = Some first →
     head (snd (jf x visited)) = Some first
     ∧ ∀ v cx e, EventVisit v cx e ∈ fst (jf x visited) →
         P cx ∧ head v = Some first ∧ last v = Some (ev_Attributes e)) →
  ∀ visited, head visited = Some first →
    head (snd (journalEach jf l visited)) = Some first
    ∧ ∀ v cx e, EventVisit v cx e ∈ fst (journalEach jf l visited) →
        P cx ∧ head v = Some first ∧ last v = Some (ev_Attributes e).
Proof.
  intros Hstep. induction l as [|x l IH]; intros visited Hv; simpl.
  - split; [done|]. intros v cx e Hin. by apply elem_of_nil in Hin.
  - destruct (Hstep x visited Hv) as [Hv1 Hin1].
    destruct (jf x visited) as [js visited1]; simpl in *.
    destruct (IH visited1 Hv1) as [Hv2 Hin2].
    destruct (journalEach jf l visited1) as [js' visited2]; simpl in *.
    split; [done|]. intros v cx e Hin.
    apply elem_of_app in Hin as [Hin|Hin]; [by apply Hin1 | by apply Hin2].
Qed.

Lemma head_snoc_Some {A : Type} (l : list A) (x y : A) :
  head l = Some x → head (l ++ [y]) = Some x.
Proof. by destruct l. Qed.

Lemma resourceJournal_visited (i : nat) (resourceSpans : ResourceSpans)
    (v : list Attrs) (cx : SpanContext) (e : SpanEvent) :
  EventVisit v cx e ∈ fst (resourceJournal i resourceSpans) →
  (cx_Index cx = i ∧ cx_ResourceAttributes cx = rs_Attributes resourceSpans)
  ∧ head v = Some (rs_Attributes resourceSpans)
  ∧ last v = Some (ev_Attributes e).
Proof.
  unfold resourceJournal.
  apply (journalEach_visited _ _ (rs_Attributes resourceSpans)
           (λ cx, cx_Index cx = i
                  ∧ cx_ResourceAttributes cx = rs_Attributes resourceSpans));
    [|done].
  intros scopeSpans visited Hv. unfold scopeJournal.
  apply journalEach_visited; [|done].
  clear visited Hv. intros span visited Hv. unfold spanJournal.
  destruct (json_Marshal (sp_Attributes span)) as [tagsBytes|]; simpl.
  - apply journalEach_visited; [|by apply head_snoc_Some].
    clear visited Hv. intros event visited Hv. unfold eventJournal; simpl.
    split; [by apply head_snoc_Some|].
    intros v' cx' e' Hin. apply list_elem_of_singleton in Hin.
    injection Hin as -> -> ->. simpl.
    split; [done|]. split; [by apply head_snoc_Some | apply last_snoc].
  - split; [done|]. intros v' cx' e' Hin.
    apply list_elem_of_singleton in Hin. done.
Qed.

Lemma batchJournal_visited (spans : list ResourceSpans) (i : nat)
    (v : list Attrs) (cx : SpanContext) (e : SpanEvent) :
  EventVisit v cx e ∈ batchJournal spans i →
  ∃ resourceSpans, (i ≤ cx_Index cx)%nat
    ∧ spans !! (cx_Index cx - i) = Some resourceSpans
    ∧ cx_ResourceAttributes cx = rs_Attributes resourceSpans
    ∧ head v = Some (rs_Attributes resourceSpans)
    ∧ last v = Some (ev_Attributes e).
Proof.
  revert i. induction spans as [|r spans IH]; intros i; simpl.
  - intros Hin. by apply elem_of_nil in Hin.
  - intros Hin. apply elem_of_app in Hin as [Hin|Hin].
    + apply resourceJournal_visited in Hin as ([<- Hra] & Hh & Hl).
      exists r. rewrite Nat.sub_diag. done.
    + destruct (IH _ Hin) as (r' & Hle & Hlook & Hrest).
      exists r'. split; [lia|]. split; [|done].
      replace (cx_Index cx - i) with (S (cx_Index cx - S i)) by lia. done.
Qed.

(** ** The three maps *)

Lemma appendAt_lookup {V : Type} (k k' : string) (v : V)
    (m : gmap string (list V)) :
  default [] (appendAt k v m !! k')
  = default [] (m !! k') ++ (if decide (k = k') then [v] else []).
Proof.
  unfold appendAt. destruct (decide (k = k')) as [->|Hne].
  - by rewrite lookup_insert_eq.
  - rewrite lookup_insert_ne by done. by rewrite app_nil_r.
Qed.

Lemma appendAt_keyedRecords {V : Type} (k : string) (v : V)
    (m : gmap string (list V)) :
  k ≠ "" → keyedRecords m → keyedRecords (appendAt k v m).
Proof.
  intros Hk Hm k' l. unfold appendAt.
  destruct (decide (k = k')) as [<-|Hne].
  - rewrite lookup_insert_eq. intros [= <-]. split; [done|].
    by destruct (default [] (m !! k)).
  - rewrite lookup_insert_ne by done. apply Hm.
Qed.

(** What the classification of one event adds to the three maps: the one
    record [placement] names, at the end of the list under its key. *)
Lemma classifyEvent_buckets (cx : SpanContext) (event : SpanEvent)
    (ids : Identifiers) (st : TraceState) (k : string) :
  let st' := classifyEvent cx event ids st in
  let placed := option_list (placement cx event ids) in
  default [] (traceErrors st' !! k)
  = default [] (traceErrors st !! k) ++ omap (placedTraceError k) placed
  ∧ default [] (projectErrors st' !! k)
    = default [] (projectErrors st !! k) ++ omap (placedProjectError k) placed
  ∧ default [] (projectLogs st' !! k)
    = default [] (projectLogs st !! k) ++ omap (placedProjectLog k) placed.
Proof.
  unfold classifyEvent, placement, routeError, routeLog.
  repeat case_decide; repeat case_match; simpl;
    rewrite ?appendAt_lookup, ?app_nil_r; repeat case_decide; done.
Qed.

Lemma classifyEvent_keyedRecords (cx : SpanContext) (event : SpanEvent)
    (ids : Identifiers) (st : TraceState) :
  keyedRecords (traceErrors st) ∧ keyedRecords (projectErrors st)
  ∧ keyedRecords (projectLogs st) →
  keyedRecords (traceErrors (classifyEvent cx event ids st))
  ∧ keyedRecords (projectErrors (classifyEvent cx event ids st))
  ∧ keyedRecords (projectLogs (classifyEvent cx event ids st)).
Proof.
  intros (H1 & H2 & H3). unfold classifyEvent, routeError, routeLog.
  repeat case_decide; repeat case_match; simpl;
    split_and!; try done; by apply appendAt_keyedRecords.
Qed.

Lemma replay_buckets (journal : list JournalItem) (st st' : TraceState)
    (k : string) :
  replay journal st = Some st' →
  let placed := omap itemPlacement journal in
  default [] (traceErrors st' !! k)
  = default [] (traceErrors st !! k) ++ omap (placedTraceError k) placed
  ∧ default [] (projectErrors st' !! k)
    = default [] (projectErrors st !! k) ++ omap (placedProjectError k) placed
  ∧ default [] (projectLogs st' !! k)
    = default [] (projectLogs st !! k) ++ omap (placedProjectLog k) placed.
Proof.
  unfold replay. revert st.
  induction journal as [|item journal IH]; intros st; simpl.
  - intros [= <-]. by rewrite !app_nil_r.
  - destruct (replayItem item st) as [st1|] eqn:Hitem; simpl; [|done].
    intros Hrest. destruct (IH _ Hrest) as (IH1 & IH2 & IH3).
    rewrite IH1, IH2, IH3. clear IH IH1 IH2 IH3 Hrest.
    destruct item as [|visited cx event]; simpl in *.
    + injection Hitem as <-. done.
    + destruct (resolve visited noIdentifiers) as [ids|]; simpl in *; [|done].
      injection Hitem as <-.
      destruct (classifyEvent_buckets cx event ids st k) as (E1 & E2 & E3).
      rewrite E1, E2, E3. rewrite <- !(assoc_L (++)).
      destruct (placement cx event ids) as [p|]; simpl; [|done].
      destruct (placedTraceError k p), (placedProjectError k p),
        (placedProjectLog k p); done.
Qed.

Lemma replay_keyedRecords (journal : list JournalItem) (st st' : TraceState) :
  replay journal st = Some st' →
  keyedRecords (traceErrors st) ∧ keyedRecords (projectErrors st)
  ∧ keyedRecords (projectLogs st) →
  keyedRecords (traceErrors st') ∧ keyedRecords (projectErrors st')
  ∧ keyedRecords (projectLogs st').
Proof.
  unfold replay. revert st.
  induction journal as [|item journal IH]; intros st; simpl.
  - by intros [= <-].
  - destruct (replayItem item st) as [st1|] eqn:Hitem; simpl; [|done].
    intros Hrest Hst. apply (IH _ Hrest).
    destruct item as [|visited cx event]; simpl in *.
    + by injection Hitem as <-.
    + destruct (resolve visited noIdentifiers) as [ids|]; simpl in *; [|done].
      injection Hitem as <-. by apply classifyEvent_keyedRecords.
Qed.

Lemma replay_resolves (journal : list JournalItem) (st st' : TraceState)
    (visited : list Attrs) (cx : SpanContext) (event : SpanEvent) :
  replay journal st = Some st' →
  EventVisit visited cx event ∈ journal →
  is_Some (resolve visited noIdentifiers).
Proof.
  unfold replay. revert st.
  induction journal as [|item journal IH]; intros st; simpl.
  - intros _ Hin. by apply elem_of_nil in Hin.
  - destruct (replayItem item st) as [st1|] eqn:Hitem; simpl; [|done].
    intros Hrest Hin. apply elem_of_cons in Hin as [<-|Hin].
    + simpl in Hitem.
      destruct (resolve visited noIdentifiers) as [ids|]; [eauto | done].
    + by apply (IH _ Hrest).
Qed.

Lemma keyedRecords_empty {V : Type} :
  keyedRecords (∅ : gmap string (list V)).
Proof. intros k l Hl. by rewrite lookup_empty in Hl. Qed.

(** C5: where the classification of a batch files its records. An error
    record goes to the end of the list of [traceErrors] under the session
    id when that is non-empty, else to the end of the list of
    [projectErrors] under the project id when that is non-empty, else to
    no map, with a line in the log; the other entries and the other maps
    stay as they are. Over the whole batch, the list under a key of a map
    is made of the records filed under exactly that key in that map, in
    the order of the traversal, and no map has an empty list or the empty
    key. *)
Theorem records_filed_once_in_traversal_order (req : list ResourceSpans)
    (mem : Memory) (st : TraceState) :
  classifyTrace req = Some (mem, st) →
  (∀ k, default [] (traceErrors st !! k)
        = omap (placedTraceError k) (placements req))
  ∧ (∀ k, default [] (projectErrors st !! k)
          = omap (placedProjectError k) (placements req))
  ∧ (∀ k, default [] (projectLogs st !! k)
          = omap (placedProjectLog k) (placements req))
  ∧ (keyedRecords (traceErrors st) ∧ keyedRecords (projectErrors st)
     ∧ keyedRecords (projectLogs st))
  ∧ (∀ ids err st0,
       let st1 := routeError ids err st0 in
       (sessionID ids ≠ "" →
          traceErrors st1
          = <[sessionID ids :=
                default [] (traceErrors st0 !! sessionID ids) ++ [err]]>
              (traceErrors st0)
          ∧ projectErrors st1 = projectErrors st0)
       ∧ (sessionID ids = "" → projectID ids ≠ "" →
            projectErrors st1
            = <[projectID ids :=
                  default [] (projectErrors st0 !! projectID ids) ++ [err]]>
                (projectErrors st0)
            ∧ traceErrors st1 = traceErrors st0)
       ∧ (sessionID ids = "" → projectID ids = "" →
            traceErrors st1 = traceErrors st0
            ∧ projectErrors st1 = projectErrors st0
            ∧ traceDiagnostics st1
              = traceDiagnostics st0 ++ [ErrorNoSessionNoProject err])
       ∧ projectLogs st1 = projectLogs st0).
Proof.
  intros Hclass. apply classifyTrace_replay in Hclass.
  pose proof (λ k, replay_buckets _ _ _ k Hclass) as Hb. simpl in Hb.
  split; [intros k; by destruct (Hb k) as (-> & _ & _)|].
  split; [intros k; by destruct (Hb k) as (_ & -> & _)|].
  split; [intros k; by destruct (Hb k) as (_ & _ & ->)|].
  split.
  { apply (replay_keyedRecords _ _ _ Hclass).
    split_and!; apply keyedRecords_empty. }
  intros ids err st0. unfold routeError, appendAt.
  repeat case_decide; simpl; repeat split; done.
Qed.

(** C1, as the code has it. The classification of a batch is the replay
    of its journal from the empty maps: every event is classified with the
    identifiers resolved from empty ones over the attribute maps visited so
    far in its own resource group, from the attributes of the resource
    group to its own, the spans and events visited before it included;
    nothing comes from another resource group. What the events visited
    later do leaves in place the records filed before them: the lists of
    the three maps only grow at their end. *)
Theorem identifiers_run_through_resource_group (req : list ResourceSpans)
    (mem : Memory) (st : TraceState) :
  classifyTrace req = Some (mem, st) →
  replay (batchJournal req 0) emptyTraceState = Some st
  ∧ (∀ visited cx event,
       EventVisit visited cx event ∈ batchJournal req 0 →
       ∃ resourceSpans,
         req !! cx_Index cx = Some resourceSpans
         ∧ head visited = Some (rs_Attributes resourceSpans)
         ∧ last visited = Some (ev_Attributes event)
         ∧ is_Some (resolve visited noIdentifiers))
  ∧ (∀ earlier later, batchJournal req 0 = earlier ++ later →
       ∃ st1, replay earlier emptyTraceState = Some st1
         ∧ ∀ k,
             default [] (traceErrors st1 !! k)
               `prefix_of` default [] (traceErrors st !! k)
             ∧ default [] (projectErrors st1 !! k)
                 `prefix_of` default [] (projectErrors st !! k)
             ∧ default [] (projectLogs st1 !! k)
                 `prefix_of` default [] (projectLogs st !! k)).
Proof.
  intros Hclass. apply classifyTrace_replay in Hclass.
  split; [done|]. split.
  - intros visited cx event Hin.
    pose proof (replay_resolves _ _ _ _ _ _ Hclass Hin) as Hres.
    apply batchJournal_visited in Hin as (r & _ & Hlook & _ & Hh & Hl).
    exists r. rewrite Nat.sub_0_r in Hlook. done.
  - intros earlier later Hsplit. rewrite Hsplit, replay_app in Hclass.
    destruct (replay earlier emptyTraceState) as [st1|]; simpl in Hclass;
      [|done].
    exists st1. split; [done|]. intros k.
    destruct (replay_buckets _ _ _ k Hclass) as (-> & -> & ->).
    repeat split; apply prefix_app_r; done.
Qed.

(** ** Submission *)

Lemma submitLoop_app (mem : Memory) (subs1 subs2 : list Submission)
    (k : Sink) :
  submitLoop mem (subs1 ++ subs2) k
  = let '(c1, k1, ok1) := submitLoop mem subs1 k in
    if ok1 then
      let '(c2, k2, ok2) := submitLoop mem subs2 k1 in (c1 ++ c2, k2, ok2)
    else (c1, k1, false).
Proof.
  revert k. induction subs1 as [|sub subs1 IH]; intros k; simpl.
  - by destruct (submitLoop mem subs2 k) as [[c2 k2] ok2].
  - destruct (Submit mem sub k) as [k' ok]. destruct ok; [|done].
    rewrite IH. destruct (submitLoop mem subs1 k') as [[c1 k1] ok1].
    destruct ok1; [|done].
    by destruct (submitLoop mem subs2 k1) as [[c2 k2] ok2].
Qed.

(** The three loops of [HandleTrace] are one loop over its plan. *)
Lemma routeTrace_plan (mem : Memory) (st : TraceState) (k : Sink) :
  routeTrace mem st k
  = let '(calls, k', ok) := submitLoop mem (tracePlan st) k in
    mkResponse (if ok then StatusOK else StatusServiceUnavailable) calls k'.
Proof.
  unfold routeTrace, tracePlan. rewrite submitLoop_app.
  destruct (submitLoop mem (sessionErrorSubmissions st) k) as [[c1 k1] ok1].
  destruct ok1; simpl; [|done]. rewrite submitLoop_app.
  destruct (submitLoop mem (projectErrorSubmissions st) k1) as [[c2 k2] ok2].
  destruct ok2; simpl; [|done].
  destruct (submitLoop mem (logSubmissions RangeProjectLogs (projectLogs st)) k2)
    as [[c3 k3] ok3].
  destruct ok3; simpl; done.
Qed.

Lemma routeLogs_plan (st : LogState) (k : Sink) :
  routeLogs st k
  = let '(calls, k', ok) := submitLoop [] (logPlan st) k in
    mkResponse (if ok then StatusOK else StatusServiceUnavailable) calls k'.
Proof.
  unfold routeLogs, logPlan.
  destruct (submitLoop [] (logSubmissions RangeLogs (logRows st)) k)
    as [[c1 k1] ok1].
  by destruct ok1.
Qed.

Lemma submitLoop_stops (mem : Memory) (plan : list Submission) (k : Sink) :
  stopsAtFirstFailure mem plan k
    (let '(calls, k', ok) := submitLoop mem plan k in
     mkResponse (if ok then StatusOK else StatusServiceUnavailable) calls k').
Proof.
  revert k. induction plan as [|sub plan IH]; intros k.
  - unfold stopsAtFirstFailure; simpl. split_and!; try done.
    + intros earlier sub ok later Hc. by destruct earlier.
    + intros earlier sub later Hc. by destruct earlier.
  - simpl. destruct (Submit mem sub k) as [k1 ok1] eqn:Hsub.
    destruct ok1.
    + specialize (IH k1). unfold stopsAtFirstFailure in IH |- *.
      destruct (submitLoop mem plan k1) as [[calls k2] ok2]. simpl in *.
      destruct IH as (Hpre & Hsink & Hans & Hfail & Hall).
      assert (Hk1 : fst (Submit mem sub k) = k1) by by rewrite Hsub.
      split_and!.
      * by apply prefix_cons.
      * unfold sinkAfter in *; simpl. by rewrite Hk1.
      * intros earlier sub' ok later Hc. destruct earlier as [|c earlier];
          simpl in Hc.
        -- injection Hc as <- <- _. simpl. by rewrite Hsub.
        -- injection Hc as <- Hc. simpl.
           unfold sinkAfter in *; simpl. rewrite Hk1. by apply (Hans _ _ _ later).
      * intros earlier sub' later Hc. destruct earlier as [|c earlier];
          simpl in Hc; [done|].
        injection Hc as <- Hc. destruct (Hfail _ _ _ Hc) as (? & ? & ?).
        split_and!; try done. by constructor.
      * intros Hok. apply Forall_cons in Hok as [_ Hok].
        destruct (Hall Hok) as [Heq ?]. split; [|done].
        f_equal. exact Heq.
    + unfold stopsAtFirstFailure; simpl. split_and!.
      * apply prefix_cons, prefix_nil.
      * unfold sinkAfter; simpl. by rewrite Hsub.
      * intros earlier sub' ok later Hc. destruct earlier as [|c [|c' earlier]];
          simpl in Hc; [|done..].
        injection Hc as <- <- _. simpl. by rewrite Hsub.
      * intros earlier sub' later Hc. destruct earlier as [|c [|c' earlier]];
          simpl in Hc; [|done..].
        injection Hc as _ <-. done.
      * intros Hok. apply Forall_cons in Hok as [Hok _]. done.
Qed.

Lemma rangeOrder_NoDup {V : Type} (site : RangeSite) (m : gmap string V) :
  NoDup (rangeOrder V site m).
Proof. rewrite rangeOrder_perm. apply NoDup_map_to_list. Qed.

Lemma tracePlan_NoDup (st : TraceState) : NoDup (tracePlan st).
Proof.
  unfold tracePlan, sessionErrorSubmissions, projectErrorSubmissions,
    logSubmissions.
  rewrite !NoDup_app. split_and!.
  - apply NoDup_fmap_2; [|apply rangeOrder_NoDup].
    intros [k1 v1] [k2 v2]. by intros [= -> ->].
  - intros sub Hin1 Hin2. apply list_elem_of_fmap in Hin1 as ([k1 v1] & -> & _).
    apply elem_of_app in Hin2 as [Hin2|Hin2];
      apply list_elem_of_fmap in Hin2 as ([k2 v2] & Heq & _); done.
  - apply NoDup_fmap_2; [|apply rangeOrder_NoDup].
    intros [k1 v1] [k2 v2]. by intros [= -> ->].
  - intros sub Hin1 Hin2. apply list_elem_of_fmap in Hin1 as ([k1 v1] & -> & _).
    apply list_elem_of_fmap in Hin2 as ([k2 v2] & Heq & _). done.
  - apply NoDup_fmap_2; [|apply rangeOrder_NoDup].
    intros [k1 v1] [k2 v2]. by intros [= -> ->].
Qed.

Lemma logPlan_NoDup (st : LogState) : NoDup (logPlan st).
Proof.
  unfold logPlan, logSubmissions.
  apply NoDup_fmap_2; [|apply rangeOrder_NoDup].
  intros [k1 v1] [k2 v2]. by intros [= -> ->].
Qed.

(** C6: a handler that returns has made the submissions of its plan in
    order, once each, up to and including the first one the queue
    refuses; it then answers 503 and makes no further call, and the queue
    is left as the accepted calls left it: nothing is submitted again and
    nothing is taken back. When the queue refuses nothing, the whole plan
    is submitted and the answer is 200. *)
Theorem first_refused_submission_ends_the_request
    (req : list ResourceSpans) (lreq : list ResourceLogs) (k : Sink) :
  (∀ resp, HandleTrace req k = Some resp →
     ∃ mem st, classifyTrace req = Some (mem, st)
       ∧ NoDup (tracePlan st)
       ∧ stopsAtFirstFailure mem (tracePlan st) k resp)
  ∧ (∀ resp, HandleLog lreq k = Some resp →
       ∃ st, classifyLog lreq = Some st
         ∧ NoDup (logPlan st)
         ∧ stopsAtFirstFailure [] (logPlan st) k resp).
Proof.
  split.
  - intros resp. unfold HandleTrace.
    destruct (classifyTrace req) as [[mem st]|]; simpl; [|done].
    intros [= <-]. exists mem, st. split; [done|].
    split; [apply tracePlan_NoDup|].
    rewrite routeTrace_plan. apply submitLoop_stops.
  - intros resp. unfold HandleLog.
    destruct (classifyLog lreq) as [st|]; simpl; [|done].
    intros [= <-]. exists st. split; [done|].
    split; [apply logPlan_NoDup|].
    rewrite routeLogs_plan. apply submitLoop_stops.
Qed.

End Properties.

(** * The properties on the test requests *)

(** C1 fails on [siblingResource]. The exception of the second span has
    no session among its own ancestors, yet it is filed under the session
    ["A"] that an event of the first span set, and not under its project;
    and the record filed under ["A"] first points at the variable
    [sessionID], which holds ["B"] once the last event is classified. *)
Lemma sibling_and_later_overrides_reach_other_records :
  ∃ mem st,
    classifyTrace [siblingResource] = Some (mem, st)
    ∧ ancestorIdentifiers siblingResource siblingSpan2 siblingEvent2
      = Some (mkIds "1" "" "")
    ∧ traceErrors st !! "A"
      = Some [siblingError "s1" 1; siblingError "s2" 2]
    ∧ projectErrors st !! "1" = None
    ∧ deref mem (be_SessionSecureID (siblingError "s1" 1)) = "B".
Proof. eexists _, _. split_and!; vm_compute; reflexivity. Qed.

Lemma identifiers_run_through_resource_group_witness :
  ∃ mem st,
    classifyTrace [siblingResource] = Some (mem, st)
    ∧ replay (batchJournal [siblingResource] 0) emptyTraceState = Some st.
Proof.
  eexists _, _. split; [vm_compute; reflexivity|].
  eapply proj1, identifiers_run_through_resource_group.
  vm_compute; reflexivity.
Defined.




Lemma records_filed_once_in_traversal_order_witness :
  ∃ mem st,
    classifyTrace [siblingResource] = Some (mem, st)
    ∧ ∀ k, default [] (traceErrors st !! k)
           = omap (placedTraceError k) (placements [siblingResource]).
Proof.
  eexists _, _. split; [vm_compute; reflexivity|].
  eapply proj1, records_filed_once_in_traversal_order.
  vm_compute; reflexivity.
Defined.

(** The queue refuses the second of two submissions: the answer is 503
    and the first message stays submitted. *)
Lemma first_refused_submission_ends_the_request_witness :
  ∃ resp,
    HandleTrace twoSessions emptyQueue = Some resp
    ∧ resp_Status resp = StatusServiceUnavailable
    ∧ snd <$> resp_Calls resp = [true; false]
    ∧ resp_Sink resp = take 1 (fst <$> resp_Calls resp)
    ∧ ∃ mem st,
        classifyTrace twoSessions = Some (mem, st)
        ∧ NoDup (tracePlan st)
        ∧ stopsAtFirstFailure mem (tracePlan st) emptyQueue resp.
Proof.
  eexists. split; [vm_compute; reflexivity|].
  split; [vm_compute; reflexivity|].
  split; [vm_compute; reflexivity|].
  split; [vm_compute; reflexivity|].
  apply (proj1 (first_refused_submission_ends_the_request twoSessions []
                  emptyQueue)).
  vm_compute; reflexivity.
Defined.

Lemma resolve_overrides_only_by_nonempty_string_witness :
  resolve sessionThenEmpty noIdentifiers = Some (mkIds "" "S" "")
  ∧ ∃ ids1 ids2,
      resolve [ {[ "highlight.session_id" := VStr "S" ]} ] noIdentifiers
      = Some ids1
      ∧ setHighlightAttributes {[ "highlight.session_id" := VStr "" ]} ids1
        = Some ids2
      ∧ sessionID ids2 = sessionID ids1.
Proof.
  split; [vm_compute; reflexivity|].
  destruct (resolve_overrides_only_by_nonempty_string sessionThenEmpty
              noIdentifiers (mkIds "" "S" "") SessionKey)
    as (_ & _ & Hempty); [vm_compute; reflexivity|].
  apply (Hempty _ _ []); [reflexivity | vm_compute; reflexivity].
Defined.

Lemma severity_never_fails_witness :
  ∃ row,
    logEvent testContext plainLogEvent (mkIds "1" "" "") = inr row
    ∧ lr_SeverityText row = "unknown"
    ∧ lr_SeverityNumber row = 0%Z.
Proof.
  eexists. split; [vm_compute; reflexivity|].
  destruct (severity_never_fails testContext plainLogEvent (mkIds "1" "" ""))
    as (_ & _ & Hrow).
  destruct (Hrow _ ltac:(vm_compute; reflexivity)) as (Htext & _ & _ & Hzero).
  split; [exact Htext|]. reflexivity.
Defined.

Lemma exception_without_type_is_BACKEND_witness :
  ∃ err,
    exceptionEvent testContext untypedException = inr err
    ∧ be_Type err = "BACKEND" ∧ be_Event err = "boom".
Proof.
  apply (exception_without_type_is_BACKEND testContext untypedException
           "main.go:1" "boom");
    solve [vm_compute; reflexivity | done].
Defined.

Lemma signed_project_id_wraps_witness :
  ParseInt_10_32 "-1" = Some (-1)%Z
  ∧ ∃ row,
      logEvent testContext plainLogEvent (mkIds "-1" "" "") = inr row
      ∧ lr_ProjectId row = 4294967295%Z.
Proof.
  split; [reflexivity|].
  destruct (signed_project_id_wraps "-1" (-1) testContext plainLogEvent ∅ ""
              emptyBodyLog (mkIds "-1" "" ""))
    as (_ & _ & (row & Hrow & Hpid & _) & _);
    [reflexivity | reflexivity | by vm_compute |].
  exists row. split; [exact Hrow | exact Hpid].
Defined.

(** * Further properties of the handlers *)

(** ** Loops, again *)

Lemma forEach_concat {A S : Type} (body : A → S → option S)
    (ls : list (list A)) (s : S) :
  forEach body (mjoin ls) s = forEach (forEach body) ls s.
Proof.
  revert s. induction ls as [|l ls IH]; intros s; simpl; [done|].
  rewrite forEach_app. destruct (forEach body l s); simpl; [apply IH | done].
Qed.

Lemma forEach_fmap {A B S : Type} (f : A → B) (body : B → S → option S)
    (l : list A) (s : S) :
  forEach body (f <$> l) s = forEach (λ x, body (f x)) l s.
Proof.
  revert s. induction l as [|x l IH]; intros s; simpl; [done|].
  destruct (body (f x) s); simpl; [apply IH | done].
Qed.

Lemma forEach_ext {A S : Type} (body1 body2 : A → S → option S)
    (l : list A) (s : S) :
  (∀ x s, body1 x s = body2 x s) → forEach body1 l s = forEach body2 l s.
Proof.
  intros Hext. revert s. induction l as [|x l IH]; intros s; simpl; [done|].
  rewrite Hext. destruct (body2 x s); simpl; [apply IH | done].
Qed.


(** An invariant of the body is an invariant of the loop. *)
Lemma forEach_invariant {A S : Type} (P : S → Prop)
    (body : A → S → option S) (l : list A) (s s' : S) :
  (∀ x s s', P s → body x s = Some s' → P s') →
  P s → forEach body l s = Some s' → P s'.
Proof.
  intros Hstep. revert s. induction l as [|x l IH]; intros s Hs; simpl.
  - by intros [= <-].
  - destruct (body x s) as [s1|] eqn:Hx; simpl; [|done].
    apply IH. by apply (Hstep x s).
Qed.

Section Extras.
Context `{Externals}.

(** ** When the resolver panics *)

Lemma setAttribute_None (attrs : Attrs) (key x : string) :
  setAttribute attrs key x = None
  ↔ ∃ v, attrs !! key = Some v ∧ assertString v = None.
Proof.
  unfold setAttribute. destruct (attrs !! key) as [p|].
  - destruct (assertString p) eqn:Hp; simpl.
    + split; [done|]. intros (v & [= <-] & Hv). congruence.
    + split; [|done]. intros _. by exists p.
  - split; [done|]. by intros (v & ? & _).
Qed.

Lemma setHighlightAttributes_None (attrs : Attrs) (ids : Identifiers) :
  setHighlightAttributes attrs ids = None
  ↔ ∃ r v, attrs !! reservedKey r = Some v ∧ assertString v = None.
Proof.
  unfold setHighlightAttributes. split.
  - intros Hnone.
    destruct (setAttribute attrs ProjectIDAttribute (projectID ids))
      as [p|] eqn:Hp; simpl in Hnone.
    2: { apply setAttribute_None in Hp as (v & ? & ?).
         by exists ProjectKey, v. }
    destruct (setAttribute attrs SessionIDAttribute (sessionID ids))
      as [s|] eqn:Hs; simpl in Hnone.
    2: { apply setAttribute_None in Hs as (v & ? & ?).
         by exists SessionKey, v. }
    destruct (setAttribute attrs RequestIDAttribute (requestID ids))
      as [q|] eqn:Hq; simpl in Hnone; [done|].
    apply setAttribute_None in Hq as (v & ? & ?). by exists RequestKey, v.
  - intros (r & v & Hv & Hp).
    by apply (setHighlightAttributes_non_string _ _ r v).
Qed.

Lemma resolve_None (maps : list Attrs) (ids : Identifiers) :
  resolve maps ids = None
  ↔ ∃ m r v, m ∈ maps ∧ m !! reservedKey r = Some v
      ∧ assertString v = None.
Proof.
  unfold resolve. revert ids.
  induction maps as [|m maps IH]; intros ids; simpl.
  - split; [done|]. intros (m & _ & _ & Hin & _). by apply elem_of_nil in Hin.
  - destruct (setHighlightAttributes m ids) as [ids1|] eqn:Hm; simpl.
    + rewrite IH. split.
      * intros (m' & r & v & Hin & Hv). exists m', r, v.
        split; [by right | done].
      * intros (m' & r & v & Hin & Hv & Hp).
        apply elem_of_cons in Hin as [->|Hin]; [|by exists m', r, v].
        assert (setHighlightAttributes m ids = None) as Hnone
          by (apply setHighlightAttributes_None; by exists r, v).
        congruence.
    + split; [|done]. intros _.
      apply setHighlightAttributes_None in Hm as (r & v & Hv & Hp).
      exists m, r, v. split; [by left | done].
Qed.

(** X1: [setHighlightAttributes] panics exactly when one of the three
    reserved keys is present with a value that is not a string, whatever
    the identifiers resolved so far; and the resolver panics on a sequence
    of attribute maps exactly when one of the maps is such. *)
Theorem setHighlightAttributes_panics_iff (attrs : Attrs)
    (maps : list Attrs) (ids : Identifiers) :
  (setHighlightAttributes attrs ids = None
   ↔ ∃ r v, attrs !! reservedKey r = Some v ∧ assertString v = None)
  ∧ (resolve maps ids = None
     ↔ ∃ m r v, m ∈ maps ∧ m !! reservedKey r = Some v
         ∧ assertString v = None).
Proof. split; [apply setHighlightAttributes_None | apply resolve_None]. Qed.

(** X3: Applying an attribute map a second time changes nothing. *)
Theorem setHighlightAttributes_idempotent (attrs : Attrs)
    (ids ids' : Identifiers) :
  setHighlightAttributes attrs ids = Some ids' →
  setHighlightAttributes attrs ids' = Some ids'.
Proof.
  intros Hs.
  assert (Hfield : ∀ r,
    setAttribute attrs (reservedKey r) (identifier r ids')
    = Some (identifier r ids')).
  { intros r. apply (setHighlightAttributes_field _ _ _ r) in Hs.
    apply setAttribute_cases in Hs. unfold setAttribute.
    destruct Hs as [[_ [Hnone|Hempty]] | [Hne Hlook]].
    - by rewrite Hnone.
    - rewrite Hempty. done.
    - rewrite Hlook; simpl. by rewrite decide_True. }
  pose proof (Hfield ProjectKey) as Hp. pose proof (Hfield SessionKey) as Hss.
  pose proof (Hfield RequestKey) as Hq. simpl in Hp, Hss, Hq.
  unfold setHighlightAttributes. rewrite Hp, Hss, Hq.
  simpl. by destruct ids'.
Qed.

(** X2: The innermost non-empty value wins: after a sequence of attribute
    maps an identifier is the non-empty string of the last map that holds
    one under the reserved key, and the identifier it started from when no
    map does. *)
Theorem resolve_innermost_nonempty_wins (maps : list Attrs)
    (ids ids' : Identifiers) (r : Reserved) :
  resolve maps ids = Some ids' →
  ((∀ m s, m ∈ maps → m !! reservedKey r = Some (VStr s) → s = "")
   ∧ identifier r ids' = identifier r ids)
  ∨ (∃ outer m inner, maps = outer ++ m :: inner
       ∧ m !! reservedKey r = Some (VStr (identifier r ids'))
       ∧ identifier r ids' ≠ ""
       ∧ ∀ m' s, m' ∈ inner → m' !! reservedKey r = Some (VStr s) → s = "").
Proof.
  unfold resolve. revert ids.
  induction maps as [|m maps IH]; intros ids; simpl.
  - intros [= <-]. left. split; [|done].
    intros m s Hin. by apply elem_of_nil in Hin.
  - destruct (setHighlightAttributes m ids) as [ids1|] eqn:Hm; simpl; [|done].
    intros Hrest.
    destruct (IH _ Hrest) as [[Hnone Heq] | (outer & m0 & inner & -> & ?)].
    + apply (setHighlightAttributes_field _ _ _ r) in Hm.
      apply setAttribute_cases in Hm.
      destruct Hm as [[Hsame Hlook] | [Hne Hlook]].
      * left. split; [|congruence].
        intros m' s Hin Hs. apply elem_of_cons in Hin as [->|Hin];
          [|by apply (Hnone m')].
        destruct Hlook as [Hl|Hl]; rewrite Hl in Hs; congruence.
      * right. exists [], m, maps. rewrite Heq. done.
    + right. exists (m :: outer), m0, inner. done.
Qed.

(** ** The identifiers through the loops *)












(** ** Where the filed records come from *)

Lemma journalEach_elem {A : Type}
    (jf : A → list Attrs → list JournalItem * list Attrs) (l : list A)
    (Q : JournalItem → Prop) :
  (∀ x visited item, x ∈ l → item ∈ fst (jf x visited) → Q item) →
  ∀ visited item, item ∈ fst (journalEach jf l visited) → Q item.
Proof.
  induction l as [|x l IH]; intros Hstep visited item; simpl.
  - intros Hin. by apply elem_of_nil in Hin.
  - pose proof (Hstep x visited) as Hx.
    destruct (jf x visited) as [js visited1]; simpl in *.
    pose proof (IH (λ y v it Hy, Hstep y v it (list_elem_of_further _ _ _ Hy))
                  visited1) as Hl.
    destruct (journalEach jf l visited1) as [js' visited2]; simpl in *.
    intros Hin. apply elem_of_app in Hin as [Hin|Hin].
    + apply Hx; [by left | done].
    + by apply Hl.
Qed.

(** What the journal entry of an event records of the loops around it. *)
Lemma resourceJournal_context (i : nat) (resourceSpans : ResourceSpans)
    (v : list Attrs) (cx : SpanContext) (e : SpanEvent) :
  EventVisit v cx e ∈ fst (resourceJournal i resourceSpans) →
  cx_Index cx = i
  ∧ cx_ResourceAttributes cx = rs_Attributes resourceSpans
  ∧ cx_sdkLanguage cx
    = castString (rs_Attributes resourceSpans !! TelemetrySDKLanguageKey) ""
  ∧ cx_serviceName cx
    = castString (rs_Attributes resourceSpans !! ServiceNameKey) ""
  ∧ (∃ scopeSpans, scopeSpans ∈ rs_ScopeSpans resourceSpans
       ∧ cx_ScopeName cx = ss_ScopeName scopeSpans
       ∧ cx_Span cx ∈ ss_Spans scopeSpans)
  ∧ json_Marshal (sp_Attributes (cx_Span cx)) = Some (cx_tagsBytes cx)
  ∧ e ∈ sp_Events (cx_Span cx).
Proof.
  unfold resourceJournal.
  pose (Q := λ item : JournalItem, ∀ v cx e, item = EventVisit v cx e →
    cx_Index cx = i
    ∧ cx_ResourceAttributes cx = rs_Attributes resourceSpans
    ∧ cx_sdkLanguage cx
      = castString (rs_Attributes resourceSpans !! TelemetrySDKLanguageKey) ""
    ∧ cx_serviceName cx
      = castString (rs_Attributes resourceSpans !! ServiceNameKey) ""
    ∧ (∃ scopeSpans, scopeSpans ∈ rs_ScopeSpans resourceSpans
         ∧ cx_ScopeName cx = ss_ScopeName scopeSpans
         ∧ cx_Span cx ∈ ss_Spans scopeSpans)
    ∧ json_Marshal (sp_Attributes (cx_Span cx)) = Some (cx_tagsBytes cx)
    ∧ e ∈ sp_Events (cx_Span cx)).
  intros Hin. cut (Q (EventVisit v cx e)); [intros HQ; exact (HQ v cx e eq_refl)|].
  revert Hin. generalize (EventVisit v cx e). clear v cx e. intros item.
  apply (journalEach_elem _ _ Q). clear item.
  intros scopeSpans visited item Hscope. unfold scopeJournal.
  apply (journalEach_elem _ _ Q). clear visited item.
  intros span visited item Hspan. unfold spanJournal.
  destruct (json_Marshal (sp_Attributes span)) as [tagsBytes|] eqn:Hjson.
  - apply (journalEach_elem _ _ Q). clear visited item.
    intros event visited item Hevent. unfold eventJournal; simpl.
    intros Hin v' cx' e' ->. apply list_elem_of_singleton in Hin.
    injection Hin as -> -> ->. simpl. split_and!; try done.
    by exists scopeSpans.
  - simpl. intros Hin v' cx' e' ->. apply list_elem_of_singleton in Hin. done.
Qed.

Lemma batchJournal_context (spans : list ResourceSpans) (i : nat)
    (v : list Attrs) (cx : SpanContext) (e : SpanEvent) :
  EventVisit v cx e ∈ batchJournal spans i →
  ∃ resourceSpans,
    (i ≤ cx_Index cx)%nat
    ∧ spans !! (cx_Index cx - i)%nat = Some resourceSpans
    ∧ EventVisit v cx e ∈ fst (resourceJournal (cx_Index cx) resourceSpans).
Proof.
  revert i. induction spans as [|r spans IH]; intros i; simpl.
  - intros Hin. by apply elem_of_nil in Hin.
  - intros Hin. apply elem_of_app in Hin as [Hin|Hin].
    + pose proof (resourceJournal_context _ _ _ _ _ Hin) as [<- _].
      exists r. rewrite Nat.sub_diag. done.
    + destruct (IH _ Hin) as (r' & Hle & Hlook & Hrest).
      exists r'. split; [lia|]. split; [|done].
      replace (cx_Index cx - i)%nat with (S (cx_Index cx - S i)) by lia. done.
Qed.

Lemma placements_origin (req : list ResourceSpans) (p : Placed) :
  p ∈ placements req →
  ∃ v cx e ids,
    EventVisit v cx e ∈ batchJournal req 0
    ∧ resolve v noIdentifiers = Some ids
    ∧ placement cx e ids = Some p.
Proof.
  unfold placements. intros Hin.
  apply list_elem_of_omap in Hin as (item & Hitem & Hp).
  destruct item as [|v cx e]; simpl in Hp; [done|].
  destruct (resolve v noIdentifiers) as [ids|] eqn:Hres; simpl in Hp; [|done].
  by exists v, cx, e, ids.
Qed.

Lemma placement_inv (cx : SpanContext) (e : SpanEvent) (ids : Identifiers)
    (p : Placed) :
  placement cx e ids = Some p →
  match p with
  | InTraceErrors k err =>
      ev_Name e = ExceptionEventName ∧ exceptionEvent cx e = inr err
      ∧ k = sessionID ids ∧ k ≠ ""
  | InProjectErrors k err =>
      ev_Name e = ExceptionEventName ∧ exceptionEvent cx e = inr err
      ∧ sessionID ids = "" ∧ k = projectID ids ∧ k ≠ ""
  | InProjectLogs k row =>
      ev_Name e = LogName ∧ logEvent cx e ids = inr row
      ∧ k = projectID ids ∧ k ≠ ""
  end.
Proof.
  unfold placement. destruct (decide (ev_Name e = ExceptionEventName)).
  - destruct (exceptionEvent cx e) as [d|err] eqn:Hexc; [done|].
    destruct (decide (sessionID ids ≠ "")) as [|Hs].
    + intros [= <-]. done.
    + destruct (decide (projectID ids ≠ "")); [|done].
      intros [= <-]. split_and!; try done. by apply dec_stable.
  - destruct (decide (ev_Name e = LogName)); [|done].
    destruct (logEvent cx e ids) as [d|row] eqn:Hlog; [done|].
    destruct (decide (projectID ids ≠ "")); [|done].
    intros [= <-]. done.
Qed.

(** The records of the three maps after classification, by the journal
    entry they come from. *)
Lemma classifyTrace_buckets (req : list ResourceSpans) (mem : Memory)
    (st : TraceState) (k : string) :
  classifyTrace req = Some (mem, st) →
  default [] (traceErrors st !! k)
  = omap (placedTraceError k) (placements req)
  ∧ default [] (projectErrors st !! k)
    = omap (placedProjectError k) (placements req)
  ∧ default [] (projectLogs st !! k)
    = omap (placedProjectLog k) (placements req).
Proof.
  intros Hclass. apply classifyTrace_replay in Hclass.
  apply (replay_buckets _ _ _ k) in Hclass. done.
Qed.

Lemma filed_error_origin (req : list ResourceSpans) (mem : Memory)
    (st : TraceState) (k : string) (errs : list BackendErrorObjectInput)
    (err : BackendErrorObjectInput) :
  classifyTrace req = Some (mem, st) →
  traceErrors st !! k = Some errs ∨ projectErrors st !! k = Some errs →
  err ∈ errs →
  ∃ v cx e ids,
    EventVisit v cx e ∈ batchJournal req 0
    ∧ resolve v noIdentifiers = Some ids
    ∧ ev_Name e = ExceptionEventName
    ∧ exceptionEvent cx e = inr err
    ∧ (k = sessionID ids ∨ k = projectID ids).
Proof.
  intros Hclass Hk Herr.
  destruct (classifyTrace_buckets _ _ _ k Hclass) as (Ht & Hp & _).
  destruct Hk as [Hk|Hk].
  - rewrite Hk in Ht; simpl in Ht. rewrite Ht in Herr.
    apply list_elem_of_omap in Herr as (p & Hin & Hplaced).
    destruct p as [k' err'| |]; simpl in Hplaced; try done.
    case_decide; [|done]. injection Hplaced as ->. subst k'.
    apply placements_origin in Hin as (v & cx & e & ids & Hin & Hres & Hpl).
    apply placement_inv in Hpl as (? & ? & ? & ?).
    exists v, cx, e, ids. split_and!; try done. by left.
  - rewrite Hk in Hp; simpl in Hp. rewrite Hp in Herr.
    apply list_elem_of_omap in Herr as (p & Hin & Hplaced).
    destruct p as [|k' err'|]; simpl in Hplaced; try done.
    case_decide; [|done]. injection Hplaced as ->. subst k'.
    apply placements_origin in Hin as (v & cx & e & ids & Hin & Hres & Hpl).
    apply placement_inv in Hpl as (? & ? & ? & ? & ?).
    exists v, cx, e, ids. split_and!; try done. by right.
Qed.

Lemma filed_row_origin (req : list ResourceSpans) (mem : Memory)
    (st : TraceState) (k : string) (rows : list LogRow) (row : LogRow) :
  classifyTrace req = Some (mem, st) →
  projectLogs st !! k = Some rows →
  row ∈ rows →
  ∃ v cx e ids,
    EventVisit v cx e ∈ batchJournal req 0
    ∧ resolve v noIdentifiers = Some ids
    ∧ ev_Name e = LogName
    ∧ logEvent cx e ids = inr row
    ∧ k = projectID ids ∧ k ≠ "".
Proof.
  intros Hclass Hk Hrow.
  destruct (classifyTrace_buckets _ _ _ k Hclass) as (_ & _ & Hl).
  rewrite Hk in Hl; simpl in Hl. rewrite Hl in Hrow.
  apply list_elem_of_omap in Hrow as (p & Hin & Hplaced).
  destruct p as [| |k' row']; simpl in Hplaced; try done.
  case_decide; [|done]. injection Hplaced as ->. subst k'.
  apply placements_origin in Hin as (v & cx & e & ids & Hin & Hres & Hpl).
  apply placement_inv in Hpl as (? & ? & ? & ?).
  by exists v, cx, e, ids.
Qed.

Lemma exceptionEvent_inr (cx : SpanContext) (event : SpanEvent)
    (err : BackendErrorObjectInput) :
  exceptionEvent cx event = inr err →
  be_SessionSecureID err = AddrSessionID (cx_Index cx)
  ∧ be_RequestID err = AddrRequestID (cx_Index cx)
  ∧ be_TraceID err = sp_TraceID (cx_Span cx)
  ∧ be_SpanID err = sp_SpanID (cx_Span cx)
  ∧ be_Timestamp err = ev_Timestamp event
  ∧ be_Payload err = cx_tagsBytes cx
  ∧ be_Source err
    = joinSource (cx_sdkLanguage cx) (cx_serviceName cx) (cx_ScopeName cx)
  ∧ be_Type err ≠ ""
  ∧ ∃ stack, stack ≠ ""
      ∧ ev_Attributes event !! ExceptionStacktraceKey = Some (VStr stack)
      ∧ be_StackTrace err = formatStructureStackTrace stack.
Proof.
  unfold exceptionEvent. case_decide as Hstack; [done|].
  case_decide as Hboth; [done|]. intros [= <-]. simpl. split_and!; try done.
  - unfold castString at 1. simpl. case_decide as Hty; [done|]. done.
  - exists (castString (ev_Attributes event !! ExceptionStacktraceKey) "").
    split; [done|]. split; [|done].
    rewrite castString_empty_fallback in Hstack |- *.
    destruct (ev_Attributes event !! ExceptionStacktraceKey) as [[]|];
      simpl in *; done.
Qed.

(** X6: Every error record that [HandleTrace] has filed comes from an
    exception event of the request, and describes it: its type is not
    empty, its trace id, span id and payload are those of the span of the
    event, its source is made of the resource's SDK language and service
    name and of the scope name, and its stack trace is the formatted,
    non-empty stack trace of the event. *)
Theorem filed_errors_describe_an_exception_event (req : list ResourceSpans)
    (mem : Memory) (st : TraceState) (k : string)
    (errs : list BackendErrorObjectInput) (err : BackendErrorObjectInput) :
  classifyTrace req = Some (mem, st) →
  traceErrors st !! k = Some errs ∨ projectErrors st !! k = Some errs →
  err ∈ errs →
  be_Type err ≠ ""
  ∧ ∃ resourceSpans scopeSpans span event stack,
      resourceSpans ∈ req
      ∧ scopeSpans ∈ rs_ScopeSpans resourceSpans
      ∧ span ∈ ss_Spans scopeSpans
      ∧ event ∈ sp_Events span
      ∧ ev_Name event = ExceptionEventName
      ∧ be_TraceID err = sp_TraceID span
      ∧ be_SpanID err = sp_SpanID span
      ∧ be_Timestamp err = ev_Timestamp event
      ∧ json_Marshal (sp_Attributes span) = Some (be_Payload err)
      ∧ be_Source err
        = joinSource
            (castString (rs_Attributes resourceSpans
                         !! TelemetrySDKLanguageKey) "")
            (castString (rs_Attributes resourceSpans !! ServiceNameKey) "")
            (ss_ScopeName scopeSpans)
      ∧ stack ≠ ""
      ∧ ev_Attributes event !! ExceptionStacktraceKey = Some (VStr stack)
      ∧ be_StackTrace err = formatStructureStackTrace stack.
Proof.
  intros Hclass Hk Herr.
  destruct (filed_error_origin _ _ _ _ _ _ Hclass Hk Herr)
    as (v & cx & e & ids & Hin & _ & Hname & Hexc & _).
  apply batchJournal_context in Hin as (r & _ & Hlook & Hin).
  apply resourceJournal_context in Hin
    as (_ & _ & Hsdk & Hsvc & (ss & Hss & Hscope & Hspan) & Hjson & He).
  apply exceptionEvent_inr in Hexc
    as (_ & _ & Htid & Hsid & Hts & Hpay & Hsrc & Hty & stack & ? & ? & ?).
  split; [done|]. exists r, ss, (cx_Span cx), e, stack.
  split_and!; try done.
  - by apply list_elem_of_lookup_2 in Hlook.
  - by rewrite Hpay.
  - by rewrite Hsrc, Hsdk, Hsvc, Hscope.
Qed.


(** X8: Every log row that [HandleTrace] has filed comes from a log event of
    the request. Its key is not empty and normalises to the project id of
    the row; its body is not empty; its severity number is between 0 and
    6; its resource attributes and service name are those of the resource
    group of the event. *)
Theorem filed_log_rows_describe_a_log_event (req : list ResourceSpans)
    (mem : Memory) (st : TraceState) (k : string) (rows : list LogRow)
    (row : LogRow) :
  classifyTrace req = Some (mem, st) →
  projectLogs st !! k = Some rows →
  row ∈ rows →
  k ≠ ""
  ∧ (∃ n, projectToInt k = Some n ∧ lr_ProjectId row = uint32 n)
  ∧ lr_Body row ≠ ""
  ∧ (0 ≤ lr_SeverityNumber row ≤ 6)%Z
  ∧ ∃ resourceSpans scopeSpans span event,
      resourceSpans ∈ req
      ∧ scopeSpans ∈ rs_ScopeSpans resourceSpans
      ∧ span ∈ ss_Spans scopeSpans
      ∧ event ∈ sp_Events span
      ∧ ev_Name event = LogName
      ∧ lr_Body row = castString (ev_Attributes event !! LogMessageKey) ""
      ∧ lr_LogAttributes row = logEventAttributes (ev_Attributes event)
      ∧ lr_ResourceAttributes row
        = stringAttributes (rs_Attributes resourceSpans)
      ∧ lr_ServiceName row
        = castString (rs_Attributes resourceSpans !! ServiceNameKey) ""
      ∧ lr_TraceId row = sp_TraceID span
      ∧ lr_SpanId row = sp_SpanID span
      ∧ lr_Timestamp row = ev_Timestamp event.
Proof.
  intros Hclass Hk Hrow.
  destruct (filed_row_origin _ _ _ _ _ _ Hclass Hk Hrow)
    as (v & cx & e & ids & Hin & _ & Hname & Hlog & -> & Hne).
  apply batchJournal_context in Hin as (r & _ & Hlook & Hin).
  apply resourceJournal_context in Hin
    as (_ & Hra & _ & Hsvc & (ss & Hss & _ & Hspan) & _ & He).
  pose proof (logEvent_inr _ _ _ _ Hlog)
    as (n & Hn & Hmsg & Hbody & Hpid & _ & Hattrs & _ & Hsev).
  split; [done|]. split; [by exists n|]. split; [by rewrite Hbody|].
  split.
  { rewrite Hsev. destruct (ParseLevel_range
      (castString (ev_Attributes e !! LogSeverityKey) "unknown")) as [Hr _].
    by rewrite int32_small. }
  exists r, ss, (cx_Span cx), e.
  unfold logEvent in Hlog. rewrite decide_False in Hlog by done.
  rewrite Hn in Hlog. injection Hlog as <-. simpl.
  split_and!; try done.
  - by apply list_elem_of_lookup_2 in Hlook.
  - by rewrite Hra.
Qed.

(** ** A request without exception or log events *)

Lemma keyedRecords_no_records {V : Type} (m : gmap string (list V)) :
  keyedRecords m → (∀ k, default [] (m !! k) = []) → m = ∅.
Proof.
  intros Hkeyed Hnone. apply map_empty. intros k.
  specialize (Hnone k). destruct (m !! k) as [l|] eqn:Hk; [|done].
  destruct (Hkeyed _ _ Hk) as [_ Hl]. simpl in Hnone. done.
Qed.

Lemma rangeOrder_empty {V : Type} (site : RangeSite) :
  rangeOrder V site ∅ = [].
Proof.
  apply Permutation_nil_r. rewrite rangeOrder_perm.
  by rewrite map_to_list_empty.
Qed.

Lemma omap_all_None {A B : Type} (f : A → option B) (l : list A) :
  (∀ x, x ∈ l → f x = None) → omap f l = [].
Proof.
  induction l as [|x l IH]; intros Hnone; simpl; [done|].
  rewrite (Hnone x) by by left. apply IH. intros y Hy. apply Hnone. by right.
Qed.

Lemma batchJournal_event (req : list ResourceSpans) (i : nat)
    (v : list Attrs) (cx : SpanContext) (e : SpanEvent) :
  EventVisit v cx e ∈ batchJournal req i → e ∈ batchEvents req.
Proof.
  intros Hin. apply batchJournal_context in Hin as (r & _ & Hlook & Hin).
  apply resourceJournal_context in Hin
    as (_ & _ & _ & _ & (ss & Hss & _ & Hspan) & _ & He).
  apply list_elem_of_lookup_2 in Hlook. unfold batchEvents.
  apply list_elem_of_join. exists (sp_Events (cx_Span cx)). split; [done|].
  apply list_elem_of_fmap. exists (cx_Span cx). split; [done|].
  apply list_elem_of_join. exists (ss_Spans ss). split; [done|].
  apply list_elem_of_fmap. exists ss. split; [done|].
  apply list_elem_of_join. exists (rs_ScopeSpans r). split; [done|].
  apply list_elem_of_fmap. by exists r.
Qed.

(** X9: A trace request none of whose events is an exception or a log makes
    no submission: if the handler does not panic it answers 200 and leaves
    the queue as it was. *)
Theorem no_exception_or_log_event_no_submission (req : list ResourceSpans)
    (k : Sink) (resp : Response Sink) :
  (∀ e, e ∈ batchEvents req →
     ev_Name e ≠ ExceptionEventName ∧ ev_Name e ≠ LogName) →
  HandleTrace req k = Some resp →
  resp = mkResponse StatusOK [] k.
Proof.
  intros Hnames. unfold HandleTrace.
  destruct (classifyTrace req) as [[mem st]|] eqn:Hclass; simpl; [|done].
  intros [= <-].
  assert (Hplaced : placements req = []).
  { unfold placements. apply omap_all_None.
    intros item Hin. destruct item as [|v cx e]; simpl; [done|].
    apply batchJournal_event in Hin.
    destruct (Hnames _ Hin) as [Hexc Hlog].
    destruct (resolve v noIdentifiers) as [ids|]; simpl; [|done].
    unfold placement. by rewrite !decide_False. }
  pose proof (classifyTrace_replay _ _ _ Hclass) as Hreplay.
  destruct (replay_keyedRecords _ _ _ Hreplay) as (K1 & K2 & K3).
  { split_and!; apply keyedRecords_empty. }
  pose proof (λ k, classifyTrace_buckets _ _ _ k Hclass) as Hb.
  rewrite Hplaced in Hb. simpl in Hb.
  assert (traceErrors st = ∅) as E1
    by (apply keyedRecords_no_records; [done | intros k'; apply Hb]).
  assert (projectErrors st = ∅) as E2
    by (apply keyedRecords_no_records; [done | intros k'; apply Hb]).
  assert (projectLogs st = ∅) as E3
    by (apply keyedRecords_no_records; [done | intros k'; apply Hb]).
  rewrite routeTrace_plan. unfold tracePlan, sessionErrorSubmissions,
    projectErrorSubmissions, logSubmissions.
  rewrite E1, E2, E3, !rangeOrder_empty. done.
Qed.

(** ** What is submitted *)

Lemma submitLoop_accepted (mem : Memory) (plan : list Submission) (k : Sink)
    (calls : list (Submission * bool)) (k' : Sink) :
  submitLoop mem plan k = (calls, k', true) →
  fst <$> calls = plan ∧ Forall (λ c, snd c = true) calls.
Proof.
  revert k calls k'. induction plan as [|sub plan IH]; intros k calls k';
    simpl.
  - intros [= <- _]. done.
  - destruct (Submit mem sub k) as [k1 ok1]. destruct ok1; [|done].
    destruct (submitLoop mem plan k1) as [[calls1 k2] ok2] eqn:Hloop.
    intros [= <- _ ->]. destruct (IH _ _ _ Hloop) as [Hplan Hok].
    split; [by rewrite fmap_cons, Hplan | by constructor].
Qed.

Lemma rangeOrder_elem {V : Type} (site : RangeSite) (m : gmap string V)
    (key : string) (v : V) :
  (key, v) ∈ rangeOrder V site m ↔ m !! key = Some v.
Proof. rewrite rangeOrder_perm. apply elem_of_map_to_list. Qed.

Lemma rangeOrder_length {V : Type} (site : RangeSite) (m : gmap string V) :
  List.length (rangeOrder V site m) = size m.
Proof. rewrite rangeOrder_perm. apply length_map_to_list. Qed.

Lemma tracePlan_elem (st : TraceState) (sub : Submission) :
  sub ∈ tracePlan st
  ↔ (∃ key errs, traceErrors st !! key = Some errs
       ∧ sub = mkSubmission ProducerQueue
                 (PushBackendPayload (Some key) None errs) key)
    ∨ (∃ key errs, projectErrors st !! key = Some errs
         ∧ sub = mkSubmission ProducerQueue
                   (PushBackendPayload None (Some key) errs) key)
    ∨ (∃ key rows, projectLogs st !! key = Some rows
         ∧ sub = mkSubmission BatchedQueue (PushLogs rows) key).
Proof.
  unfold tracePlan, sessionErrorSubmissions, projectErrorSubmissions,
    logSubmissions.
  rewrite !elem_of_app, !list_elem_of_fmap. split.
  - intros [([key v] & -> & Hin) | [([key v] & -> & Hin) | ([key v] & -> & Hin)]];
      apply rangeOrder_elem in Hin; [left | right; left | right; right];
      by exists key, v.
  - intros [(key & v & Hin & ->) | [(key & v & Hin & ->) | (key & v & Hin & ->)]];
      [left | right; left | right; right];
      exists (key, v); (split; [done | by apply rangeOrder_elem]).
Qed.

Lemma logPlan_elem (st : LogState) (sub : Submission) :
  sub ∈ logPlan st
  ↔ ∃ key rows, logRows st !! key = Some rows
      ∧ sub = mkSubmission BatchedQueue (PushLogs rows) key.
Proof.
  unfold logPlan, logSubmissions. rewrite list_elem_of_fmap. split.
  - intros ([key v] & -> & Hin). apply rangeOrder_elem in Hin.
    by exists key, v.
  - intros (key & v & Hin & ->).
    exists (key, v). split; [done | by apply rangeOrder_elem].
Qed.

(** X10: When [HandleTrace] answers 200, every call was accepted and the calls
    are, without repetition, one message for each key of each of the
    three maps: the key is the partition key, the message carries all the
    records filed under the key, errors go to the producer queue and log
    rows to the batched queue. *)
Theorem HandleTrace_ok_submits_every_key_once (req : list ResourceSpans)
    (k : Sink) (resp : Response Sink) :
  HandleTrace req k = Some resp →
  resp_Status resp = StatusOK →
  ∃ mem st,
    classifyTrace req = Some (mem, st)
    ∧ Forall (λ c, snd c = true) (resp_Calls resp)
    ∧ NoDup (fst <$> resp_Calls resp)
    ∧ List.length (resp_Calls resp)
      = (size (traceErrors st) + size (projectErrors st)
         + size (projectLogs st))%nat
    ∧ ∀ sub, sub ∈ fst <$> resp_Calls resp
        ↔ (∃ key errs, traceErrors st !! key = Some errs
             ∧ sub = mkSubmission ProducerQueue
                       (PushBackendPayload (Some key) None errs) key)
          ∨ (∃ key errs, projectErrors st !! key = Some errs
               ∧ sub = mkSubmission ProducerQueue
                         (PushBackendPayload None (Some key) errs) key)
          ∨ (∃ key rows, projectLogs st !! key = Some rows
               ∧ sub = mkSubmission BatchedQueue (PushLogs rows) key).
Proof.
  unfold HandleTrace.
  destruct (classifyTrace req) as [[mem st]|]; simpl; [|done].
  intros [= <-]. rewrite routeTrace_plan.
  destruct (submitLoop mem (tracePlan st) k) as [[calls k'] ok] eqn:Hloop.
  destruct ok; simpl; [|done]. intros _.
  apply submitLoop_accepted in Hloop as [Hplan Hok].
  exists mem, st. split; [done|]. split; [done|]. rewrite Hplan.
  split; [apply tracePlan_NoDup|]. split; [|apply tracePlan_elem].
  rewrite <- (length_fmap fst), Hplan. unfold tracePlan,
    sessionErrorSubmissions, projectErrorSubmissions, logSubmissions.
  rewrite !length_app, !length_fmap, !rangeOrder_length. lia.
Qed.

(** X11: The same for [HandleLog] and its one map. *)
Theorem HandleLog_ok_submits_every_key_once (req : list ResourceLogs)
    (k : Sink) (resp : Response Sink) :
  HandleLog req k = Some resp →
  resp_Status resp = StatusOK →
  ∃ st,
    classifyLog req = Some st
    ∧ Forall (λ c, snd c = true) (resp_Calls resp)
    ∧ NoDup (fst <$> resp_Calls resp)
    ∧ List.length (resp_Calls resp) = size (logRows st)
    ∧ ∀ sub, sub ∈ fst <$> resp_Calls resp
        ↔ ∃ key rows, logRows st !! key = Some rows
            ∧ sub = mkSubmission BatchedQueue (PushLogs rows) key.
Proof.
  unfold HandleLog.
  destruct (classifyLog req) as [st|]; simpl; [|done].
  intros [= <-]. rewrite routeLogs_plan.
  destruct (submitLoop [] (logPlan st) k) as [[calls k'] ok] eqn:Hloop.
  destruct ok; simpl; [|done]. intros _.
  apply submitLoop_accepted in Hloop as [Hplan Hok].
  exists st. split; [done|]. split; [done|]. rewrite Hplan.
  split; [apply logPlan_NoDup|]. split; [|apply logPlan_elem].
  rewrite <- (length_fmap fst), Hplan. unfold logPlan, logSubmissions.
  by rewrite length_fmap, rangeOrder_length.
Qed.

(** ** Nothing is dropped in silence *)

Lemma recordCount_appendAt {V : Type} (k : string) (v : V)
    (m : gmap string (list V)) :
  recordCount (appendAt k v m) = S (recordCount m).
Proof.
  unfold recordCount, appendAt.
  destruct (m !! k) as [l|] eqn:Hk; simpl.
  - rewrite <- (insert_delete_eq m). rewrite <- (insert_delete_id m k l) at 2
      by done.
    rewrite !map_fold_insert_L by
      first [apply lookup_delete_eq | intros; simpl; lia].
    rewrite length_app. simpl. lia.
  - rewrite map_fold_insert_L by first [done | intros; simpl; lia]. done.
Qed.

Lemma forEach_count {A S : Type} (μ : S → nat) (w : A → nat)
    (body : A → S → option S) (l : list A) (s s' : S) :
  (∀ x s s', body x s = Some s' → μ s' = (μ s + w x)%nat) →
  forEach body l s = Some s' →
  μ s' = (μ s + sum_list (w <$> l))%nat.
Proof.
  intros Hstep. revert s. induction l as [|x l IH]; intros s; simpl.
  - intros [= <-]. cbn. lia.
  - destruct (body x s) as [s1|] eqn:Hx; simpl; [|done].
    intros Hl. rewrite (IH _ Hl), (Hstep _ _ _ Hx).
    symmetry. apply Nat.add_assoc.
Qed.

Lemma sum_list_join {A : Type} (w : A → nat) (ls : list (list A)) :
  sum_list (w <$> mjoin ls) = sum_list ((λ l, sum_list (w <$> l)) <$> ls).
Proof.
  induction ls as [|l ls IH]; simpl; [done|].
  by rewrite fmap_app, sum_list_with_app, IH.
Qed.

Lemma sum_list_ones {A : Type} (l : list A) :
  sum_list ((λ _, 1%nat) <$> l) = List.length l.
Proof. rewrite sum_list_fmap_const. lia. Qed.

Lemma classifyEvent_outcomes (cx : SpanContext) (event : SpanEvent)
    (ids : Identifiers) (st : TraceState) :
  traceOutcomes (classifyEvent cx event ids st)
  = (traceOutcomes st + eventAccount event)%nat.
Proof.
  unfold classifyEvent, eventAccount, routeError, routeLog, warnTrace,
    traceOutcomes.
  repeat case_decide; repeat case_match; simpl;
    rewrite ?recordCount_appendAt, ?length_app; simpl; try lia; tauto.
Qed.

Lemma spanBody_outcomes (i : nat) (resourceAttributes : Attrs)
    (sdkLanguage serviceName scopeName : string) (span : Span)
    (s s' : Identifiers * TraceState) :
  spanBody i resourceAttributes sdkLanguage serviceName scopeName span s
  = Some s' →
  traceOutcomes (snd s') = (traceOutcomes (snd s) + spanAccount span)%nat.
Proof.
  destruct s as [ids st]. unfold spanBody, spanAccount.
  destruct (json_Marshal (sp_Attributes span)) as [tagsBytes|].
  - destruct (setHighlightAttributes (sp_Attributes span) ids) as [ids1|];
      simpl; [|done].
    intros Hloop.
    apply (forEach_count (λ s, traceOutcomes (snd s)) eventAccount) in Hloop;
      [done|].
    intros event [ids2 st2] s2. unfold eventBody.
    destruct (setHighlightAttributes (ev_Attributes event) ids2); simpl;
      [|done].
    intros [= <-]. simpl. apply classifyEvent_outcomes.
  - intros [= <-]. unfold traceOutcomes, warnTrace; simpl.
    rewrite length_app; simpl. lia.
Qed.

Lemma resourceBody_outcomes (i : nat) (resourceSpans : ResourceSpans)
    (st : TraceState) (s' : Identifiers * TraceState) :
  resourceBody i resourceSpans st = Some s' →
  traceOutcomes (snd s')
  = (traceOutcomes st
     + sum_list (spanAccount
                 <$> mjoin (ss_Spans <$> rs_ScopeSpans resourceSpans)))%nat.
Proof.
  unfold resourceBody.
  destruct (setHighlightAttributes (rs_Attributes resourceSpans) noIdentifiers)
    as [ids1|]; simpl; [|done].
  intros Hloop. rewrite sum_list_join, <- list_fmap_compose.
  apply (forEach_count (λ s, traceOutcomes (snd s))
           ((λ l, sum_list (spanAccount <$> l)) ∘ ss_Spans)) in Hloop;
    [done|].
  intros scopeSpans s1 s2. unfold scopeBody. simpl.
  apply (forEach_count (λ s, traceOutcomes (snd s)) spanAccount).
  intros span s3 s4. apply spanBody_outcomes.
Qed.

Lemma resourceLoop_outcomes (spans : list ResourceSpans) (i : nat)
    (mem : Memory) (st : TraceState) (mem' : Memory) (st' : TraceState) :
  resourceLoop spans i (mem, st) = Some (mem', st') →
  traceOutcomes st' = (traceOutcomes st + traceAccount spans)%nat.
Proof.
  revert i mem st. induction spans as [|r spans IH]; intros i mem st; simpl.
  - intros [= <- <-]. symmetry. apply Nat.add_0_r.
  - destruct (resourceBody i r st) as [[ids1 st1]|] eqn:Hr; simpl; [|done].
    intros Hl. rewrite (IH _ _ _ Hl).
    apply resourceBody_outcomes in Hr. simpl in Hr. rewrite Hr.
    unfold traceAccount, batchSpans. simpl.
    rewrite !fmap_app, join_app, fmap_app, sum_list_with_app.
    symmetry. apply Nat.add_assoc.
Qed.

(** X12: [HandleTrace] drops nothing in silence: when the classification ends,
    the records in the three maps and the lines in the log are together as
    many as the spans that were skipped and the events named as an
    exception or as a log in the spans that were not. Each of those has
    left one record or one line, and nothing else has left any. *)
Theorem classifyTrace_accounts_for_every_event (req : list ResourceSpans)
    (mem : Memory) (st : TraceState) :
  classifyTrace req = Some (mem, st) →
  traceOutcomes st = traceAccount req.
Proof.
  intros Hclass. apply resourceLoop_outcomes in Hclass.
  rewrite Hclass. unfold traceOutcomes, recordCount; simpl.
  by rewrite !map_fold_empty.
Qed.

Lemma logRecordBody_outcomes (resourceAttributes : Attrs)
    (serviceName : string) (logRecord : LogRecord)
    (s s' : Identifiers * LogState) :
  logRecordBody resourceAttributes serviceName logRecord s = Some s' →
  logOutcomes (snd s') = (logOutcomes (snd s) + 1)%nat.
Proof.
  destruct s as [ids st]. unfold logRecordBody.
  destruct (setHighlightAttributes (lg_Attributes logRecord) ids) as [ids1|];
    simpl; [|done].
  unfold logOutcomes, routeLogRecord, warnLog.
  destruct (logRecordRow resourceAttributes serviceName logRecord ids1);
    intros [= <-]; simpl; repeat case_decide; simpl;
    rewrite ?recordCount_appendAt, ?length_app; simpl; lia.
Qed.

Lemma resourceLogsBody_outcomes (resourceLogs : ResourceLogs)
    (st st' : LogState) :
  resourceLogsBody resourceLogs st = Some st' →
  logOutcomes st'
  = (logOutcomes st
     + List.length (mjoin (sl_LogRecords <$> rl_ScopeLogs resourceLogs)))%nat.
Proof.
  unfold resourceLogsBody.
  destruct (setHighlightAttributes (rl_Attributes resourceLogs) noIdentifiers)
    as [ids1|]; simpl; [|done].
  destruct (forEach _ (rl_ScopeLogs resourceLogs) (ids1, st))
    as [[ids2 st2]|] eqn:Hloop; simpl; [|done].
  intros [= <-]. rewrite <- sum_list_ones, sum_list_join, <- list_fmap_compose.
  apply (forEach_count (λ s, logOutcomes (snd s))
           ((λ l, sum_list ((λ _, 1%nat) <$> l)) ∘ sl_LogRecords)) in Hloop;
    [done|].
  intros scopeLogs s1 s2. unfold scopeLogsBody. simpl.
  apply (forEach_count (λ s, logOutcomes (snd s)) (λ _, 1%nat)).
  intros logRecord s3 s4. apply logRecordBody_outcomes.
Qed.

Lemma batchLogRecords_cons (r : ResourceLogs) (req : list ResourceLogs) :
  batchLogRecords (r :: req)
  = mjoin (sl_LogRecords <$> rl_ScopeLogs r) ++ batchLogRecords req.
Proof.
  unfold batchLogRecords. rewrite fmap_cons.
  change (mjoin (rl_ScopeLogs r :: (rl_ScopeLogs <$> req)))
    with (rl_ScopeLogs r ++ mjoin (rl_ScopeLogs <$> req)).
  by rewrite fmap_app, join_app.
Qed.

(** X13: [HandleLog] drops nothing in silence: when the classification ends,
    the rows in the map and the lines in the log are together as many as
    the log records of the request. *)
Theorem classifyLog_accounts_for_every_record (req : list ResourceLogs)
    (st : LogState) :
  classifyLog req = Some st →
  logOutcomes st = List.length (batchLogRecords req).
Proof.
  unfold classifyLog. intros Hloop.
  apply (forEach_count logOutcomes
           (λ r, List.length (mjoin (sl_LogRecords <$> rl_ScopeLogs r))))
    in Hloop; [|intros r s1 s2; apply resourceLogsBody_outcomes].
  rewrite Hloop. clear Hloop.
  assert (logOutcomes emptyLogState = 0%nat) as ->
    by (unfold logOutcomes, recordCount; simpl; by rewrite map_fold_empty).
  induction req as [|r req IH]; [done|].
  rewrite batchLogRecords_cons, length_app, <- IH. done.
Qed.

(** ** The traversal of [HandleLog] and its journal *)

Lemma forEach_impl {A S : Type} (body1 body2 : A → S → option S)
    (l : list A) (s s' : S) :
  (∀ x s s', body1 x s = Some s' → body2 x s = Some s') →
  forEach body1 l s = Some s' → forEach body2 l s = Some s'.
Proof.
  intros Himpl. revert s. induction l as [|x l IH]; intros s; simpl; [done|].
  destruct (body1 x s) as [s1|] eqn:Hx; simpl; [|done].
  rewrite (Himpl _ _ _ Hx). simpl. apply IH.
Qed.

Lemma logRecords_journal (resourceAttributes : Attrs) (serviceName : string)
    (logRecords : list LogRecord) (ids : Identifiers) (st : LogState)
    (visited : list Attrs) (s' : Identifiers * LogState) :
  resolve visited noIdentifiers = Some ids →
  forEach (logRecordBody resourceAttributes serviceName) logRecords (ids, st)
  = Some s' →
  forEach replayLogItem
    (logVisits resourceAttributes serviceName visited logRecords) st
  = Some (snd s').
Proof.
  revert ids st visited.
  induction logRecords as [|logRecord logRecords IH]; intros ids st visited Hv;
    simpl.
  - by intros [= <-].
  - unfold logRecordBody at 1.
    destruct (setHighlightAttributes (lg_Attributes logRecord) ids)
      as [ids1|] eqn:H1; simpl; [|done].
    assert (Hv' : resolve (visited ++ [lg_Attributes logRecord]) noIdentifiers
                  = Some ids1) by (rewrite resolve_snoc, Hv; done).
    rewrite Hv'. simpl.
    destruct (logRecordRow resourceAttributes serviceName logRecord ids1);
      simpl; by apply IH.
Qed.

Lemma resourceLogsBody_journal (resourceLogs : ResourceLogs)
    (st st' : LogState) :
  resourceLogsBody resourceLogs st = Some st' →
  forEach replayLogItem (resourceLogJournal resourceLogs) st = Some st'.
Proof.
  unfold resourceLogsBody, resourceLogJournal.
  destruct (setHighlightAttributes (rl_Attributes resourceLogs) noIdentifiers)
    as [ids1|] eqn:H1; simpl; [|done].
  destruct (forEach _ (rl_ScopeLogs resourceLogs) (ids1, st))
    as [s2|] eqn:Hloop; simpl; [|done].
  intros [= <-]. apply (logRecords_journal _ _ _ ids1).
  - unfold resolve; simpl. by rewrite H1.
  - rewrite forEach_concat, forEach_fmap. exact Hloop.
Qed.

Lemma classifyLog_journal (req : list ResourceLogs) (st : LogState) :
  classifyLog req = Some st →
  forEach replayLogItem (logJournal req) emptyLogState = Some st.
Proof.
  unfold classifyLog, logJournal. rewrite forEach_concat, forEach_fmap.
  apply forEach_impl. intros r s s'. apply resourceLogsBody_journal.
Qed.

Lemma replayLog_rows (journal : list LogJournalItem) (st st' : LogState)
    (k : string) :
  forEach replayLogItem journal st = Some st' →
  default [] (logRows st' !! k)
  = default [] (logRows st !! k)
    ++ omap (placedUnder k) (omap logItemPlacement journal)
  ∧ (keyedRecords (logRows st) → keyedRecords (logRows st')).
Proof.
  revert st. induction journal as [|item journal IH]; intros st; simpl.
  - intros [= <-]. by rewrite app_nil_r.
  - destruct (replayLogItem item st) as [st1|] eqn:Hitem; simpl; [|done].
    intros Hrest. destruct (IH _ Hrest) as [IH1 IH2]. rewrite IH1.
    clear IH IH1 Hrest.
    destruct item as [visited ra sn logRecord]; simpl in *.
    destruct (resolve visited noIdentifiers) as [ids|]; simpl in *; [|done].
    injection Hitem as <-.
    destruct (logRecordRow ra sn logRecord ids) as [d|row]; simpl.
    + split; [done|]. intros Hk. by apply IH2.
    + unfold routeLogRecord in *.
      destruct (decide (projectID ids ≠ "")); simpl in *.
      * rewrite appendAt_lookup, <- (assoc_L (++)). unfold placedUnder; simpl.
        split; [by destruct (decide (projectID ids = k))|].
        intros Hk. by apply IH2, appendAt_keyedRecords.
      * split; [done|]. intros Hk. by apply IH2.
Qed.

(** X14: [HandleLog] files its rows as [HandleTrace] does. The classification
    of a log request is the replay of its journal: every record is
    classified with the identifiers resolved, from empty ones, over the
    attributes of its resource group and of the records visited in it up
    to the record itself. The list under a key of the map is made of the
    rows filed under exactly that key, in the order of the traversal, and
    the map has no empty key and no empty list. *)
Theorem classifyLog_files_in_traversal_order (req : list ResourceLogs)
    (st : LogState) :
  classifyLog req = Some st →
  forEach replayLogItem (logJournal req) emptyLogState = Some st
  ∧ (∀ k, default [] (logRows st !! k)
          = omap (placedUnder k) (logPlacements req))
  ∧ keyedRecords (logRows st).
Proof.
  intros Hclass. apply classifyLog_journal in Hclass.
  split; [done|]. split.
  - intros k. by destruct (replayLog_rows _ _ _ k Hclass) as [-> _].
  - destruct (replayLog_rows _ _ _ "" Hclass) as [_ Hk].
    apply Hk, keyedRecords_empty.
Qed.

Lemma logVisits_elem (resourceAttributes : Attrs) (serviceName : string)
    (visited : list Attrs) (logRecords : list LogRecord) (v : list Attrs)
    (ra : Attrs) (sn : string) (logRecord : LogRecord) :
  LogVisit v ra sn logRecord
  ∈ logVisits resourceAttributes serviceName visited logRecords →
  ra = resourceAttributes ∧ sn = serviceName ∧ logRecord ∈ logRecords.
Proof.
  revert visited. induction logRecords as [|r logRecords IH]; intros visited;
    simpl.
  - intros Hin. by apply elem_of_nil in Hin.
  - intros Hin. apply elem_of_cons in Hin as [[= -> -> -> ->]|Hin].
    + split_and!; try done. by left.
    + destruct (IH _ Hin) as (? & ? & ?). split_and!; try done. by right.
Qed.

(** X15: Every row that [HandleLog] has filed comes from a log record of the
    request and carries its fields as they are: the body, empty or not,
    the severity text and number, the ids and the timestamp. Its key is
    not empty and normalises to the project id of the row. *)
Theorem filed_rows_describe_a_log_record (req : list ResourceLogs)
    (st : LogState) (k : string) (rows : list LogRow) (row : LogRow) :
  classifyLog req = Some st →
  logRows st !! k = Some rows →
  row ∈ rows →
  k ≠ ""
  ∧ (∃ n, projectToInt k = Some n ∧ lr_ProjectId row = uint32 n)
  ∧ ∃ resourceLogs logRecord,
      resourceLogs ∈ req
      ∧ logRecord ∈ mjoin (sl_LogRecords <$> rl_ScopeLogs resourceLogs)
      ∧ lr_Body row = bodyStr (lg_Body logRecord)
      ∧ lr_SeverityText row = lg_SeverityText logRecord
      ∧ lr_SeverityNumber row = int32 (lg_SeverityNumber logRecord)
      ∧ lr_LogAttributes row = stringAttributes (lg_Attributes logRecord)
      ∧ lr_ResourceAttributes row
        = stringAttributes (rl_Attributes resourceLogs)
      ∧ lr_ServiceName row
        = castString (rl_Attributes resourceLogs !! ServiceNameKey) ""
      ∧ lr_TraceId row = lg_TraceID logRecord
      ∧ lr_SpanId row = lg_SpanID logRecord
      ∧ lr_Timestamp row = lg_Timestamp logRecord.
Proof.
  intros Hclass Hk Hrow. apply classifyLog_journal in Hclass.
  destruct (replayLog_rows _ _ _ k Hclass) as [Hrows _].
  rewrite Hk in Hrows; simpl in Hrows. rewrite Hrows in Hrow.
  apply list_elem_of_omap in Hrow as ([k' row'] & Hin & Hplaced).
  unfold placedUnder in Hplaced; simpl in Hplaced.
  case_decide; [|done]. injection Hplaced as ->. subst k'.
  apply list_elem_of_omap in Hin as (item & Hitem & Hp).
  destruct item as [v ra sn logRecord]; simpl in Hp.
  destruct (resolve v noIdentifiers) as [ids|]; simpl in Hp; [|done].
  destruct (logRecordRow ra sn logRecord ids) as [d|row'] eqn:Hrow'; [done|].
  case_decide as Hne; [|done]. injection Hp as <- <-.
  unfold logJournal in Hitem. apply list_elem_of_join in Hitem
    as (js & Hitem & Hjs).
  apply list_elem_of_fmap in Hjs as (r & -> & Hr).
  apply logVisits_elem in Hitem as (-> & -> & Hrec).
  unfold logRecordRow in Hrow'.
  destruct (projectToInt (projectID ids)) as [n|] eqn:Hn; [|done].
  injection Hrow' as <-. simpl.
  split; [done|]. split; [by exists n|]. exists r, logRecord. done.
Qed.

End Extras.

(** ** The handlers from the HTTP request *)

Section HttpProperties.
Context `{Externals} `{Wire}.

Lemma routeTrace_status (mem : Memory) (st : TraceState) (k : Sink) :
  resp_Status (routeTrace mem st k) = StatusOK
  ∨ resp_Status (routeTrace mem st k) = StatusServiceUnavailable.
Proof.
  rewrite routeTrace_plan.
  destruct (submitLoop mem (tracePlan st) k) as [[calls k'] ok].
  destruct ok; [by left | by right].
Qed.

Lemma routeLogs_status (st : LogState) (k : Sink) :
  resp_Status (routeLogs st k) = StatusOK
  ∨ resp_Status (routeLogs st k) = StatusServiceUnavailable.
Proof.
  rewrite routeLogs_plan.
  destruct (submitLoop [] (logPlan st) k) as [[calls k'] ok].
  destruct ok; [by left | by right].
Qed.

(** X16: A request that does not decode is refused before anything is
    classified: either handler answers 400 exactly when reading the body,
    opening or reading the gzip stream, or decoding the protobuf message
    fails; the text of the answer is then the message of that error and a
    newline, no queue is called and the queue is left as it was. A request
    that decodes gets the answer of the classification and routing, with
    an empty text and the status 200 or 503. *)
Theorem undecodable_request_is_refused (body : RequestBody) (k : Sink)
    (ans : Answer Sink) :
  (HandleTraceHTTP body k = Some ans →
     (resp_Status (ans_Response ans) = StatusBadRequest
      ↔ ∃ err, decodeTrace body = inl err)
     ∧ (∀ err, decodeTrace body = inl err →
          ans = mkAnswer (String.append err newline)
                  (mkResponse StatusBadRequest [] k))
     ∧ (∀ req, decodeTrace body = inr req →
          HandleTrace req k = Some (ans_Response ans)
          ∧ ans_Text ans = ""
          ∧ (resp_Status (ans_Response ans) = StatusOK
             ∨ resp_Status (ans_Response ans) = StatusServiceUnavailable)))
  ∧ (HandleLogHTTP body k = Some ans →
       (resp_Status (ans_Response ans) = StatusBadRequest
        ↔ ∃ err, decodeLog body = inl err)
       ∧ (∀ err, decodeLog body = inl err →
            ans = mkAnswer (String.append err newline)
                    (mkResponse StatusBadRequest [] k))
       ∧ (∀ req, decodeLog body = inr req →
            HandleLog req k = Some (ans_Response ans)
            ∧ ans_Text ans = ""
            ∧ (resp_Status (ans_Response ans) = StatusOK
               ∨ resp_Status (ans_Response ans)
                 = StatusServiceUnavailable))).
Proof.
  split.
  - unfold HandleTraceHTTP. destruct (decodeTrace body) as [err|req].
    + intros [= <-]. simpl. split_and!; [split; eauto | | done].
      by intros err' [= <-].
    + destruct (HandleTrace req k) as [resp|] eqn:Hresp; simpl; [|done].
      intros [= <-]. simpl.
      assert (Hstatus : resp_Status resp = StatusOK
                        ∨ resp_Status resp = StatusServiceUnavailable).
      { unfold HandleTrace in Hresp.
        destruct (classifyTrace req) as [[mem st]|]; simpl in Hresp; [|done].
        injection Hresp as <-. apply routeTrace_status. }
      split_and!; [|done|].
      * split; [|by intros [err ?]]. intros H400.
        destruct Hstatus as [Hs|Hs]; rewrite Hs in H400; done.
      * by intros req' [= <-].
  - unfold HandleLogHTTP. destruct (decodeLog body) as [err|req].
    + intros [= <-]. simpl. split_and!; [split; eauto | | done].
      by intros err' [= <-].
    + destruct (HandleLog req k) as [resp|] eqn:Hresp; simpl; [|done].
      intros [= <-]. simpl.
      assert (Hstatus : resp_Status resp = StatusOK
                        ∨ resp_Status resp = StatusServiceUnavailable).
      { unfold HandleLog in Hresp.
        destruct (classifyLog req) as [st|]; simpl in Hresp; [|done].
        injection Hresp as <-. apply routeLogs_status. }
      split_and!; [|done|].
      * split; [|by intros [err ?]]. intros H400.
        destruct Hstatus as [Hs|Hs]; rewrite Hs in H400; done.
      * by intros req' [= <-].
Qed.

End HttpProperties.

(** ** The decimal form of a project id *)

Lemma parseDigits_of_uint_acc (d : Decimal.uint) (acc : positive) :
  parseDigits (DecimalString.NilEmpty.string_of_uint d) (Z.pos acc)
  = Some (Z.pos (Pos.of_uint_acc d acc)).
Proof.
  revert acc. induction d as [|d IH|d IH|d IH|d IH|d IH|d IH|d IH|d IH|d IH|d IH];
    intros acc; [done|..];
    cbn [DecimalString.NilEmpty.string_of_uint parseDigits Pos.of_uint_acc];
    rewrite <- IH;
    match goal with
    | |- context [digitValue ?c] =>
        let v := eval vm_compute in (digitValue c) in
        change (digitValue c) with v
    end;
    cbn [mbind option_bind]; f_equal; lia.
Qed.

Lemma parseDigits_of_uint (d : Decimal.uint) :
  parseDigits (DecimalString.NilEmpty.string_of_uint d) 0
  = Some (Z.of_N (Pos.of_uint d)).
Proof.
  induction d as [|d IH|d IH|d IH|d IH|d IH|d IH|d IH|d IH|d IH|d IH];
    [done | |..];
    cbn [DecimalString.NilEmpty.string_of_uint parseDigits Pos.of_uint];
    match goal with
    | |- context [digitValue ?c] =>
        let v := eval vm_compute in (digitValue c) in
        change (digitValue c) with v
    end;
    cbn [mbind option_bind];
    first [exact IH | apply parseDigits_of_uint_acc].
Qed.

Lemma string_of_uint_head (d : Decimal.uint) :
  d ≠ Decimal.Nil →
  ∃ c rest, DecimalString.NilEmpty.string_of_uint d = String c rest
    ∧ c ≠ "+"%char ∧ c ≠ "-"%char.
Proof.
  destruct d; [done|..]; intros _; eexists _, _; (split; [reflexivity|]);
    split; discriminate.
Qed.

Lemma parseDigits_NilZero (d : Decimal.uint) :
  ∃ c rest, DecimalString.NilZero.string_of_uint d = String c rest
    ∧ c ≠ "+"%char ∧ c ≠ "-"%char
    ∧ parseDigits (String c rest) 0 = Some (Z.of_N (Pos.of_uint d)).
Proof.
  assert (d = Decimal.Nil ∨ d ≠ Decimal.Nil) as [->|Hd]
    by (destruct d; [by left | right; discriminate..]).
  - exists "0"%char, EmptyString. split_and!; done.
  - destruct (string_of_uint_head d Hd) as (c & rest & Hs & ? & ?).
    exists c, rest. replace (DecimalString.NilZero.string_of_uint d)
      with (DecimalString.NilEmpty.string_of_uint d) by by destruct d.
    split_and!; try done. rewrite <- Hs. apply parseDigits_of_uint.
Qed.

Lemma ParseInt_10_32_unsigned (c : ascii) (rest : string) (un : Z) :
  c ≠ "+"%char → c ≠ "-"%char →
  parseDigits (String c rest) 0 = Some un → (un < 2 ^ 31)%Z →
  ParseInt_10_32 (String c rest) = Some un.
Proof.
  intros Hp Hm Hparse Hun. unfold ParseInt_10_32.
  destruct (decide (c = "+"%char)); [done|].
  destruct (decide (c = "-"%char)); [done|].
  rewrite Hparse. cbn [mbind option_bind].
  destruct (decide (un < 2 ^ 31)%Z); done.
Qed.

Lemma ParseInt_10_32_negative (c : ascii) (rest : string) (un : Z) :
  parseDigits (String c rest) 0 = Some un → (un ≤ 2 ^ 31)%Z →
  ParseInt_10_32 (String "-"%char (String c rest)) = Some (- un)%Z.
Proof.
  intros Hparse Hun. unfold ParseInt_10_32.
  destruct (decide ("-"%char = "+"%char)); [done|].
  destruct (decide ("-"%char = "-"%char)); [|done].
  rewrite Hparse. cbn [mbind option_bind].
  destruct (decide (un ≤ 2 ^ 31)%Z); done.
Qed.

(** A signed 32-bit integer written in decimal is read back as itself by
    [strconv.ParseInt(s, 10, 32)]. *)
Lemma ParseInt_10_32_decimal (z : Z) :
  (- 2 ^ 31 ≤ z < 2 ^ 31)%Z → ParseInt_10_32 (decimal z) = Some z.
Proof.
  intros Hz. pose proof (DecimalZ.of_to z) as Hof. unfold decimal.
  destruct (Z.to_int z) as [d|d]; simpl in Hof; unfold Z.of_uint in Hof;
    cbn [DecimalString.NilZero.string_of_int];
    destruct (parseDigits_NilZero d) as (c & rest & -> & Hp & Hm & Hparse).
  - rewrite Hof in Hparse. apply ParseInt_10_32_unsigned; try done. lia.
  - replace z with (- Z.of_N (Pos.of_uint d))%Z by done.
    apply ParseInt_10_32_negative; [done | lia].
Qed.

Section DecimalProjectID.
Context `{Externals}.

(** X17: Every project id in the range of a signed 32-bit integer, written in
    decimal, is normalised to itself without consulting the verbose-id
    decoder; [HandleLog] then builds the row, and stores a non-negative id
    unchanged. *)
Theorem decimal_project_id_is_read_back (z : Z) (resourceAttributes : Attrs)
    (serviceName : string) (logRecord : LogRecord) (ids : Identifiers) :
  (- 2 ^ 31 ≤ z < 2 ^ 31)%Z →
  projectID ids = decimal z →
  projectToInt (decimal z) = Some z
  ∧ ∃ row, logRecordRow resourceAttributes serviceName logRecord ids
           = inr row
      ∧ lr_ProjectId row = uint32 z
      ∧ ((0 ≤ z)%Z → lr_ProjectId row = z).
Proof.
  intros Hz Hids.
  assert (Hp : projectToInt (decimal z) = Some z).
  { unfold projectToInt. by rewrite ParseInt_10_32_decimal. }
  split; [done|]. unfold logRecordRow. rewrite Hids, Hp.
  eexists. split; [done|]. simpl. split; [done|].
  intros Hpos. unfold uint32. apply Z.mod_small. lia.
Qed.

End DecimalProjectID.


(** ** Project ids out of range, attributes, and two dead branches *)

Lemma ParseInt_10_32_too_large (c : ascii) (rest : string) (un : Z) :
  c ≠ "+"%char → c ≠ "-"%char →
  parseDigits (String c rest) 0 = Some un → (2 ^ 31 ≤ un)%Z →
  ParseInt_10_32 (String c rest) = None.
Proof.
  intros Hp Hm Hparse Hun. unfold ParseInt_10_32.
  destruct (decide (c = "+"%char)); [done|].
  destruct (decide (c = "-"%char)); [done|].
  rewrite Hparse. cbn [mbind option_bind].
  destruct (decide (un < 2 ^ 31)%Z); [lia | done].
Qed.

Lemma ParseInt_10_32_too_small (c : ascii) (rest : string) (un : Z) :
  parseDigits (String c rest) 0 = Some un → (2 ^ 31 < un)%Z →
  ParseInt_10_32 (String "-"%char (String c rest)) = None.
Proof.
  intros Hparse Hun. unfold ParseInt_10_32.
  destruct (decide ("-"%char = "+"%char)); [done|].
  destruct (decide ("-"%char = "-"%char)); [|done].
  rewrite Hparse. cbn [mbind option_bind].
  destruct (decide (un ≤ 2 ^ 31)%Z); [lia | done].
Qed.

Lemma ParseInt_10_32_decimal_out_of_range (z : Z) :
  (z < - 2 ^ 31 ∨ 2 ^ 31 ≤ z)%Z → ParseInt_10_32 (decimal z) = None.
Proof.
  intros Hz. pose proof (DecimalZ.of_to z) as Hof. unfold decimal.
  destruct (Z.to_int z) as [d|d]; simpl in Hof; unfold Z.of_uint in Hof;
    cbn [DecimalString.NilZero.string_of_int];
    destruct (parseDigits_NilZero d) as (c & rest & -> & Hp & Hm & Hparse).
  - apply (ParseInt_10_32_too_large _ _ _ Hp Hm Hparse). lia.
  - apply (ParseInt_10_32_too_small _ _ _ Hparse). lia.
Qed.

Section Edges.
Context `{Externals}.

(** X18: A project id written in decimal that does not fit a signed
    32-bit integer is never read as a number by [strconv.ParseInt]:
    whether it is a project id, and which, is left to the verbose-id
    decoder. *)
Theorem out_of_range_decimal_is_left_to_the_verbose_decoder (z : Z) :
  (z < - 2 ^ 31 ∨ 2 ^ 31 ≤ z)%Z →
  projectToInt (decimal z) = FromVerboseID (decimal z).
Proof.
  intros Hz. unfold projectToInt.
  rewrite ParseInt_10_32_decimal_out_of_range by done.
  by destruct (FromVerboseID (decimal z)).
Qed.

(** X19: The log attributes of a span log event are the non-empty string
    attributes of the event, as [HandleLog] keeps them for a log record,
    without the message and severity keys. *)
Theorem logEventAttributes_without_log_keys (attrs : Attrs) :
  logEventAttributes attrs
  = delete LogMessageKey (delete LogSeverityKey (stringAttributes attrs)).
Proof.
  apply map_eq. intros k. apply option_eq. intros s.
  rewrite logEventAttributes_lookup, !lookup_delete_Some,
    stringAttributes_lookup.
  split.
  - intros (? & ? & ? & ?). done.
  - intros (? & ? & ? & ?). done.
Qed.

Lemma projectToInt_empty :
  FromVerboseID "" = None → projectToInt "" = None.
Proof. intros Hv. unfold projectToInt. simpl. by rewrite Hv. Qed.

Lemma classifyEvent_no_project_line (cx : SpanContext) (event : SpanEvent)
    (ids : Identifiers) (st : TraceState) :
  FromVerboseID "" = None →
  (∀ row, SpanLogNoProject row ∉ traceDiagnostics st) →
  ∀ row, SpanLogNoProject row
         ∉ traceDiagnostics (classifyEvent cx event ids st).
Proof.
  intros Hv Hst row. unfold classifyEvent.
  destruct (decide (ev_Name event = ExceptionEventName)) as [Hexn|Hexn].
  - destruct (exceptionEvent cx event) as [d|err] eqn:Hexc.
    + unfold exceptionEvent in Hexc. simpl.
      rewrite not_elem_of_app, not_elem_of_cons. split; [apply Hst|].
      split; [|apply not_elem_of_nil].
      repeat case_decide; first [by injection Hexc as <- | done].
    + unfold routeError. repeat case_decide; simpl; try apply Hst.
      rewrite not_elem_of_app, not_elem_of_cons. split; [apply Hst|].
      split; [done | apply not_elem_of_nil].
  - destruct (decide (ev_Name event = LogName)) as [Hname|Hname];
      [|apply Hst].
    destruct (logEvent cx event ids) as [d|logRow] eqn:Hlog.
    + simpl. rewrite not_elem_of_app, not_elem_of_cons. split; [apply Hst|].
      split; [|apply not_elem_of_nil].
      unfold logEvent in Hlog. case_decide; [by injection Hlog as <-|].
      destruct (projectToInt (projectID ids)); [done|].
      by injection Hlog as <-.
    + unfold routeLog. case_decide as Hp; simpl; [apply Hst|].
      apply logEvent_inr in Hlog as (pid & Hn & _).
      rewrite Hp, projectToInt_empty in Hn; done.
Qed.

(** X20: When the verbose-id decoder refuses the empty string, the branch
    that logs a built log row for want of a project id is dead in both
    handlers: a row is built only if the project id normalises, and the
    empty project id does not. No request makes either handler log that
    line. *)
Theorem no_project_branch_of_log_rows_is_dead (req : list ResourceSpans)
    (lreq : list ResourceLogs) :
  FromVerboseID "" = None →
  (∀ mem st row, classifyTrace req = Some (mem, st) →
     SpanLogNoProject row ∉ traceDiagnostics st)
  ∧ (∀ st row, classifyLog lreq = Some st →
       LogNoProject row ∉ logDiagnostics st).
Proof.
  intros Hv. split.
  - intros mem st row Hclass. apply classifyTrace_replay in Hclass.
    revert row.
    apply (forEach_invariant
             (λ st, ∀ row, SpanLogNoProject row ∉ traceDiagnostics st)
             replayItem _ _ _) with (3 := Hclass).
    + intros item s s' Hs Hitem. destruct item as [|v cx e]; simpl in Hitem.
      * injection Hitem as <-. intros row. simpl.
        rewrite not_elem_of_app, not_elem_of_cons. split; [apply Hs|].
        split; [done | apply not_elem_of_nil].
      * destruct (resolve v noIdentifiers) as [ids|]; simpl in Hitem; [|done].
        injection Hitem as <-. by apply classifyEvent_no_project_line.
    + intros row. apply not_elem_of_nil.
  - intros st row Hclass. apply classifyLog_journal in Hclass. revert row.
    apply (forEach_invariant
             (λ st, ∀ row, LogNoProject row ∉ logDiagnostics st)
             replayLogItem _ _ _) with (3 := Hclass).
    + intros item s s' Hs Hitem.
      destruct item as [v ra sn logRecord]; simpl in Hitem.
      destruct (resolve v noIdentifiers) as [ids|]; simpl in Hitem; [|done].
      injection Hitem as <-. intros row.
      destruct (logRecordRow ra sn logRecord ids) as [d|logRow] eqn:Hrow.
      * simpl. rewrite not_elem_of_app, not_elem_of_cons. split; [apply Hs|].
        split; [|apply not_elem_of_nil].
        unfold logRecordRow in Hrow.
        destruct (projectToInt (projectID ids)); [done|].
        by injection Hrow as <-.
      * unfold routeLogRecord. case_decide as Hp; simpl; [apply Hs|].
        apply logRecordRow_inr in Hrow as (pid & Hn & _).
        rewrite Hp, projectToInt_empty in Hn; done.
    + intros row. apply not_elem_of_nil.
Qed.

End Edges.
(** * The further properties on the test requests *)

Lemma resolve_innermost_nonempty_wins_witness :
  resolve sessionThenEmpty noIdentifiers = Some (mkIds "" "S" "")
  ∧ ∃ outer m inner,
      sessionThenEmpty = outer ++ m :: inner
      ∧ m !! "highlight.session_id" = Some (VStr "S").
Proof.
  split; [vm_compute; reflexivity|].
  destruct (resolve_innermost_nonempty_wins sessionThenEmpty noIdentifiers
              (mkIds "" "S" "") SessionKey)
    as [[_ Hsame] | (outer & m & inner & Hsplit & Hm & _)];
    [vm_compute; reflexivity | discriminate Hsame |].
  by exists outer, m, inner.
Defined.

Lemma setHighlightAttributes_idempotent_witness :
  setHighlightAttributes {[ "highlight.session_id" := VStr "S" ]}
    noIdentifiers = Some (mkIds "" "S" "")
  ∧ setHighlightAttributes {[ "highlight.session_id" := VStr "S" ]}
      (mkIds "" "S" "") = Some (mkIds "" "S" "").
Proof.
  split; [vm_compute; reflexivity|].
  apply (setHighlightAttributes_idempotent _ noIdentifiers).
  vm_compute; reflexivity.
Defined.

Lemma filed_errors_describe_an_exception_event_witness :
  ∃ mem st,
    classifyTrace [siblingResource] = Some (mem, st)
    ∧ traceErrors st !! "A"
      = Some [siblingError "s1" 1; siblingError "s2" 2]
    ∧ be_Type (siblingError "s2" 2) ≠ "".
Proof.
  eexists _, _. split; [vm_compute; reflexivity|].
  split; [vm_compute; reflexivity|].
  eapply proj1,
    (filed_errors_describe_an_exception_event [siblingResource] _ _ "A"
       [siblingError "s1" 1; siblingError "s2" 2] (siblingError "s2" 2)).
  - vm_compute; reflexivity.
  - left. vm_compute; reflexivity.
  - apply list_elem_of_further, list_elem_of_here.
Defined.


Lemma filed_log_rows_describe_a_log_event_witness :
  ∃ mem st rows row,
    classifyTrace spanLogRequest = Some (mem, st)
    ∧ projectLogs st !! "7" = Some rows
    ∧ row ∈ rows
    ∧ "7" ≠ "".
Proof.
  eexists _, _, _, _. split; [vm_compute; reflexivity|].
  split; [vm_compute; reflexivity|]. split; [apply list_elem_of_here|].
  eapply proj1, (filed_log_rows_describe_a_log_event spanLogRequest).
  - vm_compute; reflexivity.
  - vm_compute; reflexivity.
  - apply list_elem_of_here.
Defined.

Lemma no_exception_or_log_event_no_submission_witness :
  ∃ resp,
    HandleTrace quietRequest emptyQueue = Some resp
    ∧ resp = mkResponse StatusOK [] emptyQueue.
Proof.
  eexists. split; [vm_compute; reflexivity|].
  apply (no_exception_or_log_event_no_submission quietRequest emptyQueue).
  - intros e He. apply list_elem_of_singleton in He as ->. done.
  - vm_compute; reflexivity.
Defined.

Lemma HandleTrace_ok_submits_every_key_once_witness :
  ∃ resp,
    HandleTrace [siblingResource] emptyQueue = Some resp
    ∧ resp_Status resp = StatusOK
    ∧ List.length (resp_Calls resp) = 2%nat
    ∧ ∃ mem st,
        classifyTrace [siblingResource] = Some (mem, st)
        ∧ Forall (λ c, snd c = true) (resp_Calls resp).
Proof.
  eexists. split; [vm_compute; reflexivity|].
  split; [vm_compute; reflexivity|]. split; [vm_compute; reflexivity|].
  destruct (HandleTrace_ok_submits_every_key_once [siblingResource]
              emptyQueue _ ltac:(vm_compute; reflexivity)
              ltac:(vm_compute; reflexivity))
    as (mem & st & Hclass & Hok & _).
  exists mem, st. split; [exact Hclass | exact Hok].
Defined.

Lemma HandleLog_ok_submits_every_key_once_witness :
  ∃ resp,
    HandleLog emptyBodyRequest emptyQueue = Some resp
    ∧ resp_Status resp = StatusOK
    ∧ ∃ st, classifyLog emptyBodyRequest = Some st
        ∧ Forall (λ c, snd c = true) (resp_Calls resp).
Proof.
  eexists. split; [vm_compute; reflexivity|].
  split; [vm_compute; reflexivity|].
  destruct (HandleLog_ok_submits_every_key_once emptyBodyRequest
              emptyQueue _ ltac:(vm_compute; reflexivity)
              ltac:(vm_compute; reflexivity))
    as (st & Hclass & Hok & _).
  exists st. split; [exact Hclass | exact Hok].
Defined.

Lemma classifyTrace_accounts_for_every_event_witness :
  ∃ mem st,
    classifyTrace [siblingResource] = Some (mem, st)
    ∧ traceOutcomes st = traceAccount [siblingResource].
Proof.
  eexists _, _. split; [vm_compute; reflexivity|].
  eapply classifyTrace_accounts_for_every_event.
  vm_compute; reflexivity.
Defined.

Lemma classifyLog_accounts_for_every_record_witness :
  ∃ st,
    classifyLog emptyBodyRequest = Some st
    ∧ logOutcomes st = List.length (batchLogRecords emptyBodyRequest).
Proof.
  eexists. split; [vm_compute; reflexivity|].
  apply classifyLog_accounts_for_every_record.
  vm_compute; reflexivity.
Defined.

Lemma classifyLog_files_in_traversal_order_witness :
  ∃ st,
    classifyLog emptyBodyRequest = Some st
    ∧ forEach replayLogItem (logJournal emptyBodyRequest) emptyLogState
      = Some st.
Proof.
  eexists. split; [vm_compute; reflexivity|].
  eapply proj1, classifyLog_files_in_traversal_order.
  vm_compute; reflexivity.
Defined.

Lemma filed_rows_describe_a_log_record_witness :
  ∃ st rows row,
    classifyLog emptyBodyRequest = Some st
    ∧ logRows st !! "1" = Some rows
    ∧ row ∈ rows
    ∧ "1" ≠ "".
Proof.
  eexists _, _, _. split; [vm_compute; reflexivity|].
  split; [vm_compute; reflexivity|]. split; [apply list_elem_of_here|].
  eapply proj1, (filed_rows_describe_a_log_record emptyBodyRequest).
  - vm_compute; reflexivity.
  - vm_compute; reflexivity.
  - apply list_elem_of_here.
Defined.

Lemma undecodable_request_is_refused_witness :
  ∃ ans,
    HandleTraceHTTP ("" : @RequestBody testWire) emptyQueue = Some ans
    ∧ (resp_Status (ans_Response ans) = StatusBadRequest
       ↔ ∃ err, decodeTrace ("" : @RequestBody testWire) = inl err).
Proof.
  eexists. split; [vm_compute; reflexivity|].
  eapply proj1,
    (proj1 (undecodable_request_is_refused ("" : @RequestBody testWire)
              emptyQueue _)).
  vm_compute; reflexivity.
Defined.

Lemma decimal_project_id_is_read_back_witness :
  (- 2 ^ 31 ≤ 42 < 2 ^ 31)%Z
  ∧ projectID (mkIds "42" "" "") = decimal 42
  ∧ projectToInt "42" = Some 42%Z.
Proof.
  split; [lia|]. split; [reflexivity|].
  eapply proj1,
    (decimal_project_id_is_read_back 42 ∅ "" emptyBodyLog (mkIds "42" "" ""));
    [lia | reflexivity].
Defined.

Lemma out_of_range_decimal_is_left_to_the_verbose_decoder_witness :
  (2147483648 < - 2 ^ 31 ∨ 2 ^ 31 ≤ 2147483648)%Z
  ∧ projectToInt "2147483648" = None.
Proof.
  split; [right; lia|].
  change "2147483648" with (decimal 2147483648).
  rewrite (out_of_range_decimal_is_left_to_the_verbose_decoder 2147483648)
    by (right; lia).
  reflexivity.
Defined.

Lemma no_project_branch_of_log_rows_is_dead_witness :
  FromVerboseID "" = None
  ∧ ∀ st row, classifyLog emptyBodyRequest = Some st →
      LogNoProject row ∉ logDiagnostics st.
Proof.
  split; [reflexivity|].
  eapply proj2, (no_project_branch_of_log_rows_is_dead []). reflexivity.
Defined.
